(** * Conversation-session engine of the policy advisor page

    A shallow embedding of [frontend/app/discover/page.tsx]: the React
    component [DiscoverPage], its state hooks, the single [localStorage]
    slot and the asynchronous handlers [initSession], [switchSession],
    [startNewSession], [handleDeleteSession], [sendMessage],
    [toggleCompare], [handleCompare] and [loadSessionHistory].

    An [async] handler is cut at its [await]: the part before it is a
    function from the component state to a new state and the backend call
    it is now waiting for; the part after it is a function of the state at
    the moment the call settles and of its outcome.  Values a handler reads
    from its closure before the [await] (the [sessionId] compared in
    [handleDeleteSession]) travel with the suspended call. *)

From Stdlib Require Import String Ascii List ZArith Bool Arith Lia.
Import ListNotations.
Open Scope string_scope.
Set Warnings "-register-all".

(** ** JavaScript values *)

(** The values the page receives from the backend as [any]: what
    [JSON.parse] can build, plus [undefined].  Numbers are carried, never
    computed with, except for the [length] of an array or a string. *)
Inductive JsVal : Type :=
| JUndefined
| JNull
| JBool (b : bool)
| JNum (n : Z)
| JStr (s : string)
| JArr (items : list JsVal)
| JObj (fields : list (string * JsVal)).

Inductive Exn : Type :=
| TypeError
| RequestFailed.

(** Outcome of an expression that may throw, and of an awaited call. *)
Inductive Result (A : Type) : Type :=
| Ok (a : A)
| Throw (e : Exn).
Arguments Ok {A} a.
Arguments Throw {A} e.

Definition bind {A B} (r : Result A) (k : A -> Result B) : Result B :=
  match r with
  | Ok a => k a
  | Throw e => Throw e
  end.

Notation "x <- r ;; k" := (bind r (fun x => k))
  (at level 61, r at next level, right associativity).

Fixpoint mapM {A B} (f : A -> Result B) (l : list A) : Result (list B) :=
  match l with
  | [] => Ok []
  | a :: l' => b <- f a ;; bs <- mapM f l' ;; Ok (b :: bs)
  end.

Definition nullish (v : JsVal) : bool :=
  match v with
  | JUndefined | JNull => true
  | _ => false
  end.

Fixpoint lookup_field (k : string) (fs : list (string * JsVal)) : JsVal :=
  match fs with
  | [] => JUndefined
  | (k', v) :: fs' => if String.eqb k k' then v else lookup_field k fs'
  end.

(** [v.k] for a [v] that is neither [null] nor [undefined].  The page reads
    only the keys [role], [content], [metadata], [type], [policies] and
    [extracted_requirements] this way; none of them is an own or prototype
    property of a string, a number, a boolean or an array, [length] is. *)
Definition prop_of (v : JsVal) (k : string) : JsVal :=
  match v with
  | JObj fs => lookup_field k fs
  | JArr l => if String.eqb k "length" then JNum (Z.of_nat (List.length l)) else JUndefined
  | JStr s => if String.eqb k "length" then JNum (Z.of_nat (String.length s)) else JUndefined
  | _ => JUndefined
  end.

(** [v.k]: a TypeError on [null] and [undefined]. *)
Definition get_prop (v : JsVal) (k : string) : Result JsVal :=
  if nullish v then Throw TypeError else Ok (prop_of v k).

(** [v?.k] *)
Definition get_opt (v : JsVal) (k : string) : JsVal :=
  if nullish v then JUndefined else prop_of v k.

(** [v ?? d] *)
Definition coalesce (v d : JsVal) : JsVal :=
  if nullish v then d else v.

(** ** Strings *)

(** A JavaScript string is held as the bytes of its UTF-8 encoding, the
    way the source file holds its literals.  [String.prototype.trim]
    strips WhiteSpace and LineTerminator of ECMAScript from both ends:
    U+0009 to U+000D and U+0020 (one byte each), U+00A0 (two bytes), and
    U+1680, U+2000 to U+200A, U+2028, U+2029, U+202F, U+205F, U+3000 and
    U+FEFF (three bytes each). *)
Definition is_ws (c : ascii) : bool :=
  let n := nat_of_ascii c in
  (((9 <=? n) && (n <=? 13)) || (n =? 32))%nat.

(** U+00A0 is C2 A0. *)
Definition is_ws2 (a b : ascii) : bool :=
  ((nat_of_ascii a =? 194) && (nat_of_ascii b =? 160))%nat.

(** U+1680 is E1 9A 80; U+2000 to U+200A are E2 80 80 to E2 80 8A;
    U+2028, U+2029 and U+202F are E2 80 A8, E2 80 A9 and E2 80 AF;
    U+205F is E2 81 9F; U+3000 is E3 80 80; U+FEFF is EF BB BF. *)
Definition is_ws3 (a b c : ascii) : bool :=
  let x := nat_of_ascii a in
  let y := nat_of_ascii b in
  let z := nat_of_ascii c in
  (((x =? 225) && (y =? 154) && (z =? 128))
   || ((x =? 226) && (y =? 128)
       && (((128 <=? z) && (z <=? 138)) || (z =? 168) || (z =? 169) || (z =? 175)))
   || ((x =? 226) && (y =? 129) && (z =? 159))
   || ((x =? 227) && (y =? 128) && (z =? 128))
   || ((x =? 239) && (y =? 187) && (z =? 191)))%nat.

(** The string is exactly one white-space character. *)
Definition is_space (u : string) : bool :=
  match u with
  | String a EmptyString => is_ws a
  | String a (String b EmptyString) => is_ws2 a b
  | String a (String b (String c EmptyString)) => is_ws3 a b c
  | _ => false
  end.

(** The rest of the string after one leading white-space character, if it
    starts with one. *)
Definition strip_space (s : string) : option string :=
  match s with
  | EmptyString => None
  | String a s1 =>
      if is_ws a then Some s1
      else
        match s1 with
        | EmptyString => None
        | String b s2 =>
            if is_ws2 a b then Some s2
            else
              match s2 with
              | EmptyString => None
              | String c s3 => if is_ws3 a b c then Some s3 else None
              end
        end
  end.

Fixpoint trimStart (s : string) : string :=
  match s with
  | EmptyString => EmptyString
  | String a s1 =>
      if is_ws a then trimStart s1
      else
        match s1 with
        | EmptyString => s
        | String b s2 =>
            if is_ws2 a b then trimStart s2
            else
              match s2 with
              | EmptyString => s
              | String c s3 => if is_ws3 a b c then trimStart s3 else s
              end
        end
  end.

(** Trailing white space: once the rest is trimmed, what is left ends with
    a white-space character only if it is one. *)
Fixpoint trimEnd (s : string) : string :=
  match s with
  | EmptyString => EmptyString
  | String c s' =>
      let t := trimEnd s' in
      if is_space (String c t) then EmptyString else String c t
  end.

Definition trim (s : string) : string := trimEnd (trimStart s).

(** Truthiness of a string: [!s] holds of the empty string only. *)
Definition truthy_str (s : string) : bool :=
  match s with
  | EmptyString => false
  | _ => true
  end.

(** Truthiness of a [string | null]. *)
Definition truthy_id (o : option string) : bool :=
  match o with
  | Some s => truthy_str s
  | None => false
  end.

Definition nl : string := String (ascii_of_nat 10) EmptyString.
Definition dq : string := String (ascii_of_nat 34) EmptyString.

(** U+00A0 and U+2003 in UTF-8. *)
Definition nbsp : string := String (ascii_of_nat 194) (String (ascii_of_nat 160) EmptyString).
Definition em_space : string :=
  String (ascii_of_nat 226) (String (ascii_of_nat 128) (String (ascii_of_nat 131) EmptyString)).

(** ** Data model *)

Definition SESSION_KEY : string := "policyai_session_id".

(** [interface Message].  The TypeScript types are erased at run time and
    the records come from the backend as [any], so every field holds a
    JavaScript value; an absent optional field is [JUndefined]. *)
Record Message : Type := mkMessage {
  role : JsVal;
  content : JsVal;
  type : JsVal;
  policies : JsVal;
  extracted : JsVal;
  example : JsVal;
  citation : JsVal;
  policy_name : JsVal;
  found : JsVal
}.

(** [interface Session] *)
Record Session : Type := mkSession {
  id : string;
  session_name : option string;
  created_at : string;
  updated_at : string
}.

(** An entry of [selected]: [{ id, name }]. *)
Record SelectionEntry : Type := mkEntry {
  entry_id : string;
  entry_name : string
}.

Definition GREETING : Message :=
  {| role := JStr "assistant";
     content := JStr
       ("Hi! I'm your AI health insurance advisor. Tell me about your health needs, budget, and family size — I'll find and rank the best policies for you."
        ++ nl ++ nl ++ "For example: " ++ dq
        ++ "I need maternity coverage, have diabetes, budget ₹18k/year, family of 3"
        ++ dq);
     type := JStr "question";
     policies := JUndefined;
     extracted := JUndefined;
     example := JUndefined;
     citation := JUndefined;
     policy_name := JUndefined;
     found := JUndefined |}.

(** The message of the [catch] branch of [sendMessage]. *)
Definition APOLOGY : Message :=
  {| role := JStr "assistant";
     content := JStr "Sorry, something went wrong. Please try again.";
     type := JStr "question";
     policies := JUndefined;
     extracted := JUndefined;
     example := JUndefined;
     citation := JUndefined;
     policy_name := JUndefined;
     found := JUndefined |}.

(** ** Reconstruction of messages from stored records *)

(** The arrow function given to [data.messages.map] in [initSession] and in
    [switchSession] (the two are the same text).  [m.role] throws when the
    record [m] is [null]; [m.metadata?.type] does not throw on a missing
    [metadata]. *)
Definition reconstruct_one (m : JsVal) : Result Message :=
  r <- get_prop m "role" ;;
  c <- get_prop m "content" ;;
  md <- get_prop m "metadata" ;;
  Ok {| role := r;
        content := c;
        type := get_opt md "type";
        policies := get_opt md "policies";
        extracted := get_opt md "extracted_requirements";
        example := JUndefined;
        citation := JUndefined;
        policy_name := JUndefined;
        found := JUndefined |}.

Definition reconstruct (records : list JsVal) : Result (list Message) :=
  mapM reconstruct_one records.

(** ** Component state *)

(** The [useState] cells of [DiscoverPage] and the [localStorage] slot kept
    under [SESSION_KEY] ([None] is [null]: no item). *)
Record State : Type := mkState {
  messages : list Message;
  input : string;
  loading : bool;
  sessionId : option string;
  sessionLoading : bool;
  sessions : list Session;
  showHistory : bool;
  sessionPolicyIds : list string;
  selected : list SelectionEntry;
  comparing : bool;
  compareResult : JsVal;
  storage : option string
}.

Definition setMessages (v : list Message) (s : State) : State :=
  mkState v (input s) (loading s) (sessionId s) (sessionLoading s) (sessions s)
    (showHistory s) (sessionPolicyIds s) (selected s) (comparing s)
    (compareResult s) (storage s).
Definition setInput (v : string) (s : State) : State :=
  mkState (messages s) v (loading s) (sessionId s) (sessionLoading s) (sessions s)
    (showHistory s) (sessionPolicyIds s) (selected s) (comparing s)
    (compareResult s) (storage s).
Definition setLoading (v : bool) (s : State) : State :=
  mkState (messages s) (input s) v (sessionId s) (sessionLoading s) (sessions s)
    (showHistory s) (sessionPolicyIds s) (selected s) (comparing s)
    (compareResult s) (storage s).
Definition setSessionId (v : option string) (s : State) : State :=
  mkState (messages s) (input s) (loading s) v (sessionLoading s) (sessions s)
    (showHistory s) (sessionPolicyIds s) (selected s) (comparing s)
    (compareResult s) (storage s).
Definition setSessionLoading (v : bool) (s : State) : State :=
  mkState (messages s) (input s) (loading s) (sessionId s) v (sessions s)
    (showHistory s) (sessionPolicyIds s) (selected s) (comparing s)
    (compareResult s) (storage s).
Definition setSessions (v : list Session) (s : State) : State :=
  mkState (messages s) (input s) (loading s) (sessionId s) (sessionLoading s) v
    (showHistory s) (sessionPolicyIds s) (selected s) (comparing s)
    (compareResult s) (storage s).
Definition setShowHistory (v : bool) (s : State) : State :=
  mkState (messages s) (input s) (loading s) (sessionId s) (sessionLoading s)
    (sessions s) v (sessionPolicyIds s) (selected s) (comparing s)
    (compareResult s) (storage s).
Definition setSessionPolicyIds (v : list string) (s : State) : State :=
  mkState (messages s) (input s) (loading s) (sessionId s) (sessionLoading s)
    (sessions s) (showHistory s) v (selected s) (comparing s)
    (compareResult s) (storage s).
Definition setSelected (v : list SelectionEntry) (s : State) : State :=
  mkState (messages s) (input s) (loading s) (sessionId s) (sessionLoading s)
    (sessions s) (showHistory s) (sessionPolicyIds s) v (comparing s)
    (compareResult s) (storage s).
Definition setComparing (v : bool) (s : State) : State :=
  mkState (messages s) (input s) (loading s) (sessionId s) (sessionLoading s)
    (sessions s) (showHistory s) (sessionPolicyIds s) (selected s) v
    (compareResult s) (storage s).
Definition setCompareResult (v : JsVal) (s : State) : State :=
  mkState (messages s) (input s) (loading s) (sessionId s) (sessionLoading s)
    (sessions s) (showHistory s) (sessionPolicyIds s) (selected s) (comparing s)
    v (storage s).

(** [localStorage.setItem(SESSION_KEY, v)] and
    [localStorage.removeItem(SESSION_KEY)] *)
Definition setItem (v : string) (s : State) : State :=
  mkState (messages s) (input s) (loading s) (sessionId s) (sessionLoading s)
    (sessions s) (showHistory s) (sessionPolicyIds s) (selected s) (comparing s)
    (compareResult s) (Some v).
Definition removeItem (s : State) : State :=
  mkState (messages s) (input s) (loading s) (sessionId s) (sessionLoading s)
    (sessions s) (showHistory s) (sessionPolicyIds s) (selected s) (comparing s)
    (compareResult s) None.

(** The state of the first render, over whatever the slot holds. *)
Definition initial (slot : option string) : State :=
  {| messages := [GREETING];
     input := "";
     loading := false;
     sessionId := None;
     sessionLoading := true;
     sessions := [];
     showHistory := false;
     sessionPolicyIds := [];
     selected := [];
     comparing := false;
     compareResult := JNull;
     storage := slot |}.

(** ** Backend calls *)

(** The calls of [lib/api.ts] the page awaits, with their arguments. *)
Inductive Request : Type :=
| getChatSession (session_id : string)
| createChatSession
| listChatSessions
| sendChatMessage (session_id : string) (text : string)
| discoverChat (apiMessages : list (JsVal * JsVal)) (session_policy_ids : list string)
| comparePolicies (policy_ids : list string)
| deleteChatSession (session_id : string).

(** What [sendChatMessage] and [discoverChat] resolve to: an object, as
    the comment in [lib/api.ts] gives its shape.  The fields the page
    copies into a [Message] are [any]; [uploaded_policy_ids] is an array of
    ids when present, [None] when absent. *)
Record ChatData : Type := mkChatData {
  data_type : JsVal;
  data_message : JsVal;
  data_policies : JsVal;
  data_extracted_requirements : JsVal;
  data_example : JsVal;
  data_citation : JsVal;
  data_policy_name : JsVal;
  data_found : JsVal;
  data_uploaded_policy_ids : option (list string)
}.

(** The point at which a handler is suspended. *)
Inductive Cont : Type :=
| InitRestore (stored : string)
| InitCreate
| LoadHistory
| Switch (sid : string)
| NewSession
| Delete (sid : string) (closure_sessionId : option string)
| Send
| Compare.

Record Pending : Type := mkPending {
  request : Request;
  cont : Cont
}.

(** ** The handlers *)

(** *** initSession *)

Definition initSession (st : State) : State * option Pending :=
  let st := setSessionLoading true st in
  match storage st with
  | Some stored =>
      if truthy_str stored
      then (st, Some (mkPending (getChatSession stored) (InitRestore stored)))
      else (st, Some (mkPending createChatSession InitCreate))
  | None => (st, Some (mkPending createChatSession InitCreate))
  end.

(** After [await createChatSession()] in [initSession]. *)
Definition initSession_created (outcome : Result string) (st : State) : State :=
  match outcome with
  | Ok session_id =>
      setSessionLoading false (setSessionId (Some session_id) (setItem session_id st))
  | Throw _ => setSessionLoading false st
  end.

(** The inner [catch] of [initSession]: drop the slot, go on to create. *)
Definition initSession_expired (st : State) : State * option Pending :=
  (removeItem st, Some (mkPending createChatSession InitCreate)).

(** After [await getChatSession(stored)] in [initSession]; [data_messages]
    is [data?.messages], [None] when it is missing. *)
Definition initSession_restored (stored : string)
    (outcome : Result (option (list JsVal))) (st : State) : State * option Pending :=
  match outcome with
  | Ok data_messages =>
      match data_messages with
      | Some (m :: ms) =>
          match reconstruct (m :: ms) with
          | Ok restored =>
              (setSessionLoading false (setSessionLoading false
                 (setSessionId (Some stored) (setMessages restored st))), None)
          | Throw _ => initSession_expired st
          end
      | _ =>
          (setSessionLoading false (setSessionLoading false
             (setSessionId (Some stored) st)), None)
      end
  | Throw _ => initSession_expired st
  end.

(** *** loadSessionHistory *)

Definition loadSessionHistory (st : State) : State * option Pending :=
  (st, Some (mkPending listChatSessions LoadHistory)).

(** [data_sessions] is [data.sessions]; [None] is falsy and gives [[]]. *)
Definition loadSessionHistory_settled (outcome : Result (option (list Session)))
    (st : State) : State :=
  match outcome with
  | Ok (Some l) => setSessions l st
  | Ok None => setSessions [] st
  | Throw _ => setSessions [] st
  end.

(** *** switchSession *)

Definition switchSession (sid : string) (st : State) : State * option Pending :=
  (setLoading false (setShowHistory false st),
   Some (mkPending (getChatSession sid) (Switch sid))).

Definition switchSession_commit (sid : string) (msgs : list Message) (st : State) : State :=
  setCompareResult JNull (setSelected [] (setItem sid (setSessionId (Some sid)
    (setMessages msgs st)))).

Definition switchSession_loaded (sid : string)
    (outcome : Result (option (list JsVal))) (st : State) : State :=
  match outcome with
  | Ok data_messages =>
      match data_messages with
      | Some (m :: ms) =>
          match reconstruct (m :: ms) with
          | Ok restored => switchSession_commit sid restored st
          | Throw _ => st
          end
      | _ => switchSession_commit sid [GREETING] st
      end
  | Throw _ => st
  end.

(** *** startNewSession *)

Definition startNewSession (st : State) : State * option Pending :=
  (setShowHistory false st, Some (mkPending createChatSession NewSession)).

Definition startNewSession_created (outcome : Result string) (st : State) : State :=
  match outcome with
  | Ok session_id =>
      setCompareResult JNull (setSelected [] (setMessages [GREETING]
        (setSessionId (Some session_id) (setItem session_id st))))
  | Throw _ => setMessages [GREETING] st
  end.

(** *** handleDeleteSession *)

Definition handleDeleteSession (sid : string) (st : State) : State * option Pending :=
  (st, Some (mkPending (deleteChatSession sid) (Delete sid (sessionId st)))).

Definition same_id (sid : string) (o : option string) : bool :=
  match o with
  | Some s => String.eqb sid s
  | None => false
  end.

Definition handleDeleteSession_deleted (sid : string) (closure_sessionId : option string)
    (outcome : Result unit) (st : State) : State * option Pending :=
  match outcome with
  | Ok _ =>
      let st := setSessions (filter (fun s => negb (String.eqb (id s) sid)) (sessions st)) st in
      if same_id sid closure_sessionId then startNewSession st else (st, None)
  | Throw _ => (st, None)
  end.

(** *** sendMessage *)

Definition userMsg (userText : string) : Message :=
  {| role := JStr "user";
     content := JStr userText;
     type := JUndefined;
     policies := JUndefined;
     extracted := JUndefined;
     example := JUndefined;
     citation := JUndefined;
     policy_name := JUndefined;
     found := JUndefined |}.

(** [[...messages, userMsg].map((m) => ({ role: m.role, content: m.content }))] *)
Definition apiMessages_of (ms : list Message) : list (JsVal * JsVal) :=
  map (fun m => (role m, content m)) ms.

(** [text ?? input] *)
Definition text_or_input (text : option string) (st : State) : string :=
  match text with
  | Some t => t
  | None => input st
  end.

(** [sendMessage(text)] up to its [await].  [messages], [loading],
    [sessionId] and [sessionPolicyIds] are those of the render the handler
    belongs to, which is the state the event arrives in. *)
Definition sendMessage (text : option string) (st : State) : State * option Pending :=
  let userText := trim (text_or_input text st) in
  if negb (truthy_str userText) || loading st then (st, None)
  else
    let st' := setLoading true
                 (setMessages (messages st ++ [userMsg userText]) (setInput "" st)) in
    match sessionId st with
    | Some sid =>
        if truthy_str sid
        then (st', Some (mkPending (sendChatMessage sid userText) Send))
        else (st', Some (mkPending
               (discoverChat (apiMessages_of (messages st ++ [userMsg userText]))
                  (sessionPolicyIds st)) Send))
    | None =>
        (st', Some (mkPending
           (discoverChat (apiMessages_of (messages st ++ [userMsg userText]))
              (sessionPolicyIds st)) Send))
    end.

(** The assistant message built from a response. *)
Definition assistantMsg (data : ChatData) : Message :=
  {| role := JStr "assistant";
     content := coalesce (data_message data) (JStr "");
     type := data_type data;
     policies := data_policies data;
     extracted := data_extracted_requirements data;
     example := data_example data;
     citation := data_citation data;
     policy_name := data_policy_name data;
     found := data_found data |}.

(** [if (data.uploaded_policy_ids?.length) setSessionPolicyIds(...)] *)
Definition track_uploaded (data : ChatData) (st : State) : State :=
  match data_uploaded_policy_ids data with
  | Some (p :: ps) => setSessionPolicyIds (p :: ps) st
  | _ => st
  end.

(** After the [await] of [sendMessage], whichever call was awaited. *)
Definition sendMessage_settled (outcome : Result ChatData) (st : State) : State :=
  match outcome with
  | Ok data =>
      let st := track_uploaded data st in
      setLoading false (setMessages (messages st ++ [assistantMsg data]) st)
  | Throw _ =>
      setLoading false (setMessages (messages st ++ [APOLOGY]) st)
  end.

(** *** toggleCompare *)

Definition has_id (i : string) (p : SelectionEntry) : bool := String.eqb (entry_id p) i.

(** The updater given to [setSelected]. *)
Definition toggle (i name : string) (prev : list SelectionEntry) : list SelectionEntry :=
  match find (has_id i) prev with
  | Some _ => filter (fun p => negb (has_id i p)) prev
  | None =>
      if (3 <=? List.length prev)%nat then prev
      else prev ++ [mkEntry i name]
  end.

Definition toggleCompare (i name : string) (st : State) : State :=
  setCompareResult JNull (setSelected (toggle i name (selected st)) st).

(** *** handleCompare *)

Definition handleCompare (st : State) : State * option Pending :=
  if (List.length (selected st) <? 2)%nat then (st, None)
  else (setComparing true st,
        Some (mkPending (comparePolicies (map entry_id (selected st))) Compare)).

Definition handleCompare_settled (outcome : Result JsVal) (st : State) : State :=
  match outcome with
  | Ok data => setComparing false (setCompareResult data st)
  | Throw _ => setComparing false st
  end.

(** ** The page as a reactive system *)

(** What a settled call carries. *)
Inductive Reply : Type :=
| SessionReply (data_messages : option (list JsVal))
| CreatedReply (session_id : string)
| SessionsReply (data_sessions : option (list Session))
| ChatReply (data : ChatData)
| CompareReply (data : JsVal)
| DeletedReply.

(** A reply has the shape of the call it answers. *)
Definition answers (r : Request) (y : Reply) : bool :=
  match r, y with
  | getChatSession _, SessionReply _ => true
  | createChatSession, CreatedReply _ => true
  | listChatSessions, SessionsReply _ => true
  | sendChatMessage _ _, ChatReply _ => true
  | discoverChat _ _, ChatReply _ => true
  | comparePolicies _, CompareReply _ => true
  | deleteChatSession _, DeletedReply => true
  | _, _ => false
  end.

Definition settles (r : Request) (o : Result Reply) : bool :=
  match o with
  | Ok y => answers r y
  | Throw _ => true
  end.

(** Resume a suspended handler with the outcome of its call; [None] when
    the outcome is of the wrong shape for the suspension point. *)
Definition resume (k : Cont) (o : Result Reply) (st : State) : option (State * option Pending) :=
  match k, o with
  | InitRestore stored, Ok (SessionReply d) => Some (initSession_restored stored (Ok d) st)
  | InitRestore stored, Throw e => Some (initSession_restored stored (Throw e) st)
  | InitCreate, Ok (CreatedReply s) => Some (initSession_created (Ok s) st, None)
  | InitCreate, Throw e => Some (initSession_created (Throw e) st, None)
  | LoadHistory, Ok (SessionsReply d) => Some (loadSessionHistory_settled (Ok d) st, None)
  | LoadHistory, Throw e => Some (loadSessionHistory_settled (Throw e) st, None)
  | Switch sid, Ok (SessionReply d) => Some (switchSession_loaded sid (Ok d) st, None)
  | Switch sid, Throw e => Some (switchSession_loaded sid (Throw e) st, None)
  | NewSession, Ok (CreatedReply s) => Some (startNewSession_created (Ok s) st, None)
  | NewSession, Throw e => Some (startNewSession_created (Throw e) st, None)
  | Delete sid c, Ok DeletedReply => Some (handleDeleteSession_deleted sid c (Ok tt) st)
  | Delete sid c, Throw e => Some (handleDeleteSession_deleted sid c (Throw e) st)
  | Send, Ok (ChatReply d) => Some (sendMessage_settled (Ok d) st, None)
  | Send, Throw e => Some (sendMessage_settled (Throw e) st, None)
  | Compare, Ok (CompareReply d) => Some (handleCompare_settled (Ok d) st, None)
  | Compare, Throw e => Some (handleCompare_settled (Throw e) st, None)
  | _, _ => None
  end.

(** The component state together with the calls in flight. *)
Record Sys : Type := mkSys {
  ui : State;
  inflight : list Pending
}.

Inductive Event : Type :=
| Typed (value : string)
| ClickSend (text : option string)
| ClickHistory
| CloseHistory
| ClickSession (sid : string)
| ClickNew
| ClickDelete (sid : string)
| ClickCompareToggle (i name : string)
| ClickCompare
| Settle (n : nat) (o : Result Reply).

Definition opt_list {A} (o : option A) : list A :=
  match o with
  | Some a => [a]
  | None => []
  end.

Definition suspend (s : Sys) (r : State * option Pending) : Sys :=
  mkSys (fst r) (inflight s ++ opt_list (snd r)).

Fixpoint remove_nth {A} (n : nat) (l : list A) : list A :=
  match n, l with
  | _, [] => []
  | O, _ :: l' => l'
  | S n', a :: l' => a :: remove_nth n' l'
  end.

(** One event of the UI loop; [None] when the event cannot happen (no such
    call in flight, or an outcome of the wrong shape). *)
Definition step (s : Sys) (e : Event) : option Sys :=
  match e with
  | Typed v => Some (mkSys (setInput v (ui s)) (inflight s))
  | ClickSend text => Some (suspend s (sendMessage text (ui s)))
  | ClickHistory =>
      Some (suspend s (loadSessionHistory
                         (setShowHistory (negb (showHistory (ui s))) (ui s))))
  | CloseHistory => Some (mkSys (setShowHistory false (ui s)) (inflight s))
  | ClickSession sid => Some (suspend s (switchSession sid (ui s)))
  | ClickNew => Some (suspend s (startNewSession (ui s)))
  | ClickDelete sid => Some (suspend s (handleDeleteSession sid (ui s)))
  | ClickCompareToggle i name => Some (mkSys (toggleCompare i name (ui s)) (inflight s))
  | ClickCompare => Some (suspend s (handleCompare (ui s)))
  | Settle n o =>
      match nth_error (inflight s) n with
      | Some p =>
          if settles (request p) o then
            match resume (cont p) o (ui s) with
            | Some r => Some (suspend (mkSys (ui s) (remove_nth n (inflight s))) r)
            | None => None
            end
          else None
      | None => None
      end
  end.

Fixpoint run (s : Sys) (es : list Event) : option Sys :=
  match es with
  | [] => Some s
  | e :: es' =>
      match step s e with
      | Some s' => run s' es'
      | None => None
      end
  end.

(** Mounting the component: first render, then the effect runs
    [initSession]. *)
Definition mount (slot : option string) : Sys :=
  suspend (mkSys (initial slot) []) (initSession (initial slot)).

(** ** Predicates used in the statements *)

(** What a stored record holds under key [k] of its [metadata]. *)
Definition stored_meta (r : JsVal) (k : string) : JsVal :=
  get_opt (prop_of r "metadata") k.

(** The record's role is one of the two of the schema's CHECK constraint. *)
Definition valid_role (r : JsVal) : Prop :=
  get_prop r "role" = Ok (JStr "user") \/ get_prop r "role" = Ok (JStr "assistant").

(** Reading of "no loss" that covers every field of [Message]: each one
    equals what the record stores for it. *)
Definition preserves_all_fields (r : JsVal) (m : Message) : Prop :=
  role m = prop_of r "role" /\
  content m = prop_of r "content" /\
  type m = stored_meta r "type" /\
  policies m = stored_meta r "policies" /\
  extracted m = stored_meta r "extracted_requirements" /\
  example m = stored_meta r "example" /\
  citation m = stored_meta r "citation" /\
  policy_name m = stored_meta r "policy_name" /\
  found m = stored_meta r "found".

(** What the mapping does: the five fields of the stored shape are carried
    over, the four explanation fields are left undefined. *)
Definition restores_stored_shape (r : JsVal) (m : Message) : Prop :=
  role m = prop_of r "role" /\
  content m = prop_of r "content" /\
  type m = stored_meta r "type" /\
  policies m = stored_meta r "policies" /\
  extracted m = stored_meta r "extracted_requirements" /\
  example m = JUndefined /\
  citation m = JUndefined /\
  policy_name m = JUndefined /\
  found m = JUndefined.

Definition fails {A} (r : Result A) : Prop := exists e, r = Throw e.

(** A sequence of [toggleCompare] calls seen from [selected]. *)
Definition toggles (calls : list (string * string)) (prev : list SelectionEntry)
  : list SelectionEntry :=
  fold_left (fun acc c => toggle (fst c) (snd c) acc) calls prev.

Definition ids (sel : list SelectionEntry) : list string := map entry_id sel.

(** At most 3 members, no id twice. *)
Definition bounded_set (sel : list SelectionEntry) : Prop :=
  (List.length sel <= 3)%nat /\ NoDup (ids sel).

Definition is_send (p : Pending) : bool :=
  match cont p with
  | Send => true
  | _ => false
  end.

Definition sends_inflight (l : list Pending) : nat := List.length (filter is_send l).

(** The in-flight flag counts the sends in flight. *)
Definition guard_inv (s : Sys) : Prop :=
  sends_inflight (inflight s) = if loading (ui s) then 1%nat else 0%nat.

Definition is_switch (e : Event) : bool :=
  match e with
  | ClickSession _ => true
  | _ => false
  end.

(** ** Sample data *)

Definition user_record : JsVal :=
  JObj [("role", JStr "user"); ("content", JStr "family floater under 12k")].

Definition results_record : JsVal :=
  JObj [("role", JStr "assistant"); ("content", JStr "Here are 2 plans");
        ("metadata", JObj [("type", JStr "results");
                           ("policies", JArr [JObj [("id", JStr "p1")];
                                              JObj [("id", JStr "p2")]])])].

Definition explanation_record : JsVal :=
  JObj [("role", JStr "assistant"); ("content", JStr "Co-pay means ...");
        ("metadata", JObj [("type", JStr "explanation");
                           ("example", JStr "You pay 20% of the bill");
                           ("found", JBool true)])].

Definition system_record : JsVal :=
  JObj [("role", JStr "system"); ("content", JStr "maintenance notice")].

Definition plain_reply (ty msg : string) (uploaded : option (list string)) : ChatData :=
  {| data_type := JStr ty;
     data_message := JStr msg;
     data_policies := JUndefined;
     data_extracted_requirements := JUndefined;
     data_example := JUndefined;
     data_citation := JUndefined;
     data_policy_name := JUndefined;
     data_found := JUndefined;
     data_uploaded_policy_ids := uploaded |}.

(** A restored persistent session, two sends, each answered with
    [uploaded_policy_ids]. *)
Definition persistent_trace : list Event :=
  [Settle 0 (Ok (SessionReply None));
   ClickSend (Some "plans for diabetes");
   Settle 0 (Ok (ChatReply (plain_reply "results" "Found 1" (Some ["old"]))));
   ClickSend (Some "and maternity?")].

(** A page with results, two policies selected and a comparison on display, then
    "New conversation" while the backend is down. *)
Definition new_session_failure_trace : list Event :=
  [Settle 0 (Ok (CreatedReply "s1"));
   ClickSend (Some "family floater under 12k");
   Settle 0 (Ok (ChatReply (plain_reply "results" "Here are 2 plans" None)));
   ClickCompareToggle "p1" "Plan A";
   ClickCompareToggle "p2" "Plan B";
   ClickCompare;
   Settle 0 (Ok (CompareReply (JObj [("rows", JArr [])])));
   ClickNew;
   Settle 0 (Throw RequestFailed)].

Definition no_switch (es : list Event) : bool :=
  forallb (fun e => negb (is_switch e)) es.

(** Along the run of [es] from [s], every session switch is started at a
    moment when no send is in flight. *)
Fixpoint quiet_switches (s : Sys) (es : list Event) : bool :=
  match es with
  | [] => true
  | e :: es' =>
      (negb (is_switch e) || (sends_inflight (inflight s) =? 0)%nat) &&
      match step s e with
      | Some s' => quiet_switches s' es'
      | None => true
      end
  end.

(** A send, then a session picked from the history while it is pending. *)
Definition overlap_trace : list Event :=
  [ClickSend (Some "first"); ClickSession "s2"].

(** ** What the render shows *)

Definition STARTER_PROMPTS : list string :=
  ["I need maternity coverage, I have diabetes, budget ₹18,000/year, family of 3";
   "Best family floater plan under ₹12,000/year with OPD coverage";
   "Senior citizen plan with no room rent limit and mental health coverage";
   "I'm 28, healthy, want a basic individual plan under ₹8,000/year"]%list.

(** [disabled={loading || !input.trim()}] of the send button. *)
Definition send_disabled (st : State) : bool :=
  loading st || negb (truthy_str (trim (input st))).

(** [messages.length === 1 && !loading]: the starter prompts are on show. *)
Definition starters_shown (st : State) : bool :=
  (List.length (messages st) =? 1)%nat && negb (loading st).

(** [selected.length >= 2]: the compare bar is on show under a results
    message. *)
Definition compare_bar_shown (st : State) : bool :=
  (2 <=? List.length (selected st))%nat.

(** [isSelected={!!selected.find((s) => s.id === p.id)}] *)
Definition isSelected (i : string) (sel : list SelectionEntry) : bool :=
  match find (has_id i) sel with
  | Some _ => true
  | None => false
  end.

(** ** The HTTP calls of [lib/api.ts] *)

Inductive Method : Type :=
| GET
| POST
| DELETE.

(** Method, path under the base URL, and request body ([JUndefined] when
    the call sends none). *)
Record HttpCall : Type := mkHttp {
  method : Method;
  url : string;
  body : JsVal
}.

(** The body of each wrapper of [lib/api.ts] the page calls, with the
    arguments the page gives it: [createChatSession()] is called without
    arguments, so [user_id] is its default and [session_name] is
    undefined; [discoverChat] is given both arguments. *)
Definition http (r : Request) : HttpCall :=
  match r with
  | getChatSession session_id =>
      mkHttp GET ("/api/chat/sessions/" ++ session_id) JUndefined
  | createChatSession =>
      mkHttp POST "/api/chat/sessions"
        (JObj [("user_id", JStr "anonymous"); ("session_name", JUndefined)]%list)
  | listChatSessions =>
      mkHttp GET "/api/chat/sessions" JUndefined
  | sendChatMessage session_id text =>
      mkHttp POST ("/api/chat/sessions/" ++ session_id ++ "/messages")
        (JObj [("content", JStr text)]%list)
  | discoverChat apiMessages session_policy_ids =>
      mkHttp POST "/api/discover/chat"
        (JObj [("messages",
                JArr (map (fun m => JObj [("role", fst m); ("content", snd m)]%list)
                        apiMessages));
               ("session_policy_ids", JArr (map JStr session_policy_ids))]%list)
  | comparePolicies policy_ids =>
      mkHttp POST "/api/compare"
        (JObj [("policy_ids", JArr (map JStr policy_ids))]%list)
  | deleteChatSession session_id =>
      mkHttp DELETE ("/api/chat/sessions/" ++ session_id) JUndefined
  end.

(** ** Further predicates used in the statements *)

Definition is_init (p : Pending) : bool :=
  match cont p with
  | InitRestore _ | InitCreate => true
  | _ => false
  end.

Definition inits_inflight (l : list Pending) : nat := List.length (filter is_init l).

(** The startup spinner counts the startup calls in flight. *)
Definition startup_inv (s : Sys) : Prop :=
  inits_inflight (inflight s) = if sessionLoading (ui s) then 1%nat else 0%nat.

(** The text neither starts nor ends with a white-space character. *)
Definition no_space_at_ends (t : string) : Prop :=
  strip_space t = None /\
  (forall pre u, t = (pre ++ u)%string -> is_space u = false).

(** What the page can ask of the backend: a comparison of 2 or 3 distinct
    policies, a persistent send with a session id and a text that are not
    empty, a stateless send whose transcript ends with a user entry that
    is not empty. *)
Definition wf_request (r : Request) : Prop :=
  match r with
  | comparePolicies policy_ids =>
      (2 <= List.length policy_ids <= 3)%nat /\ NoDup policy_ids
  | sendChatMessage session_id text =>
      session_id <> "" /\ text <> "" /\ trim text = text
  | discoverChat apiMessages _ =>
      exists before text,
        apiMessages = (before ++ [(JStr "user", JStr text)])%list /\
        text <> "" /\ trim text = text
  | _ => True
  end.

(** A call is a send of the page when it is one of the two chat calls,
    and only a send waits on them. *)
Definition send_request (r : Request) : bool :=
  match r with
  | sendChatMessage _ _ | discoverChat _ _ => true
  | _ => false
  end.

(** The component state between two events of a page that works: the
    transcript is not empty and the selection is a bounded set. *)
Definition page_inv (s : Sys) : Prop :=
  messages (ui s) <> []%list /\
  bounded_set (selected (ui s)) /\
  Forall (fun p => wf_request (request p)) (inflight s).

(** An outcome that is a failure or a record list with a null record. *)
Definition unreadable (outcome : Result (option (list JsVal))) : Prop :=
  match outcome with
  | Throw _ => True
  | Ok (Some l) => Exists (fun r => nullish r = true) l
  | Ok None => False
  end.

(** The outcome of [getChatSession] as the event loop delivers it. *)
Definition session_outcome (o : Result (option (list JsVal))) : Result Reply :=
  match o with
  | Ok d => Ok (SessionReply d)
  | Throw e => Throw e
  end.

(** The outcome of [listChatSessions] as the event loop delivers it. *)
Definition sessions_outcome (o : Result (option (list Session))) : Result Reply :=
  match o with
  | Ok d => Ok (SessionsReply d)
  | Throw e => Throw e
  end.

(** * Properties *)

Open Scope list_scope.

(** ** The definitions on small inputs *)

Example trim_both_ends : trim ("  best plan" ++ nl ++ " ") = "best plan".
Proof. reflexivity. Qed.

Example trim_blank : trim (" " ++ nl) = "".
Proof. reflexivity. Qed.

Example optional_chaining_on_missing_metadata :
  reconstruct [user_record] = Ok [userMsg "family floater under 12k"].
Proof. reflexivity. Qed.

Example reconstruct_null_element : reconstruct [user_record; JNull] = Throw TypeError.
Proof. reflexivity. Qed.

Example fourth_selection_rejected :
  ids (toggles [("p1", "A"); ("p2", "B"); ("p3", "C"); ("p4", "D")] []) = ["p1"; "p2"; "p3"].
Proof. reflexivity. Qed.

Example blank_input_not_sent : sendMessage None (setInput "   " (initial None))
                               = (setInput "   " (initial None), None).
Proof. reflexivity. Qed.

(** ** Reconstruction *)

Section Reconstruction.

Lemma reconstruct_one_object (m : JsVal) :
  nullish m = false ->
  exists msg, reconstruct_one m = Ok msg /\ restores_stored_shape m msg.
Proof.
  intros Hm. unfold reconstruct_one, get_prop. rewrite Hm. cbn.
  eexists. split; [reflexivity|].
  unfold restores_stored_shape, stored_meta. cbn. repeat split.
Qed.

Lemma reconstruct_one_null (m : JsVal) :
  nullish m = true -> reconstruct_one m = Throw TypeError.
Proof.
  intros Hm. unfold reconstruct_one, get_prop. rewrite Hm. reflexivity.
Qed.

Lemma valid_role_not_null (r : JsVal) : valid_role r -> nullish r = false.
Proof.
  unfold valid_role, get_prop.
  destruct (nullish r); [intros [H|H]; discriminate H | reflexivity].
Qed.

Lemma reconstruct_objects (rs : list JsVal) :
  Forall (fun r => nullish r = false) rs ->
  exists ms, reconstruct rs = Ok ms /\ Forall2 restores_stored_shape rs ms.
Proof.
  induction 1 as [|r rs Hr _ IH].
  - exists []. split; [reflexivity | constructor].
  - destruct (reconstruct_one_object r Hr) as (m & Em & Sm).
    destruct IH as (ms & Ems & Sms).
    exists (m :: ms). split.
    + unfold reconstruct in *. cbn. rewrite Em. cbn. rewrite Ems. reflexivity.
    + constructor; assumption.
Qed.

Lemma reconstruct_null_record (rs : list JsVal) :
  Exists (fun r => nullish r = true) rs -> reconstruct rs = Throw TypeError.
Proof.
  unfold reconstruct.
  induction rs as [|r rs IH]; intros H; inversion H; subst; cbn.
  - rewrite reconstruct_one_null by assumption. reflexivity.
  - destruct (reconstruct_one r) as [m|e] eqn:E; cbn.
    + rewrite IH by assumption. reflexivity.
    + destruct (nullish r) eqn:Hr.
      * rewrite reconstruct_one_null in E by assumption. congruence.
      * destruct (reconstruct_one_object r Hr) as (m & Em & _). congruence.
Qed.

Lemma null_or_all_objects (rs : list JsVal) :
  Exists (fun r => nullish r = true) rs \/ Forall (fun r => nullish r = false) rs.
Proof.
  induction rs as [|r rs [IH|IH]].
  - right. constructor.
  - left. apply Exists_cons_tl. exact IH.
  - destruct (nullish r) eqn:Hr.
    + left. apply Exists_cons_hd. exact Hr.
    + right. constructor; assumption.
Qed.

(** C1, as the code has it: for every list of stored records whose roles are
    user or assistant, reconstruction succeeds and yields exactly one
    Message per record, in the same order, each carrying the record's role
    and content and its metadata's type, policies and
    extracted_requirements; the explanation fields (example, citation,
    policy_name, found) of a reconstructed Message are always undefined. *)
Theorem reconstruct_restores_stored_shape (rs : list JsVal) :
  Forall valid_role rs ->
  exists ms,
    reconstruct rs = Ok ms /\
    List.length ms = List.length rs /\
    Forall2 restores_stored_shape rs ms.
Proof.
  intros Hv.
  destruct (reconstruct_objects rs) as (ms & E & F).
  - eapply Forall_impl; [|exact Hv]. intros r. apply valid_role_not_null.
  - exists ms. split; [exact E|]. split; [|exact F].
    symmetry. eapply Forall2_length. exact F.
Qed.

Lemma reconstruct_restores_stored_shape_witness :
  Forall valid_role [user_record; results_record; explanation_record] /\
  exists ms,
    reconstruct [user_record; results_record; explanation_record] = Ok ms /\
    List.length ms = 3 /\
    Forall2 restores_stored_shape [user_record; results_record; explanation_record] ms.
Proof.
  assert (Hv : Forall valid_role [user_record; results_record; explanation_record]).
  { repeat (apply Forall_cons || apply Forall_nil); unfold valid_role; cbn; auto. }
  split; [exact Hv|].
  exact (reconstruct_restores_stored_shape _ Hv).
Defined.

(** C1 as stated fails: a stored explanation record with role assistant
    whose metadata holds an example comes back with [example] undefined, so
    not every field of the Message model survives reconstruction. *)
Lemma reconstruct_drops_explanation_fields :
  ~ (forall rs, Forall valid_role rs ->
       exists ms, reconstruct rs = Ok ms /\ Forall2 preserves_all_fields rs ms).
Proof.
  intros H.
  destruct (H [explanation_record]) as (ms & E & F).
  - apply Forall_cons; [|apply Forall_nil]. unfold valid_role. cbn. auto.
  - cbn in E. injection E as <-.
    inversion F as [|r m rs' ms' P _]; subst.
    destruct P as (_ & _ & _ & _ & _ & Hex & _).
    cbn in Hex. discriminate Hex.
Qed.

(** C3, as the code has it: reconstruction never fails because of a role.
    It throws (a TypeError) exactly when some record is itself null or
    undefined; every other list of records, whatever the roles, kinds and
    payloads, is mapped without error, the role passed through unchanged
    and a missing kind or payload field passed through as undefined. *)
Theorem reconstruct_fails_iff_null_record (rs : list JsVal) :
  (fails (reconstruct rs) <-> Exists (fun r => nullish r = true) rs) /\
  (forall ms, reconstruct rs = Ok ms -> Forall2 restores_stored_shape rs ms).
Proof.
  destruct (null_or_all_objects rs) as [Hn|Ho].
  - pose proof (reconstruct_null_record rs Hn) as E. split.
    + split; [intros _; exact Hn | intros _; exists TypeError; exact E].
    + intros ms E'. congruence.
  - destruct (reconstruct_objects rs Ho) as (ms & E & F). split.
    + split.
      * intros [e He]. congruence.
      * intros Hn. exfalso.
        apply Exists_exists in Hn. destruct Hn as (r & Hin & Hr).
        rewrite Forall_forall in Ho. specialize (Ho r Hin). congruence.
    + intros ms' E'. congruence.
Qed.

Lemma reconstruct_fails_iff_null_record_witness :
  (fails (reconstruct [user_record; JNull]) /\
   Exists (fun r => nullish r = true) [user_record; JNull]) /\
  (exists ms, reconstruct [system_record; user_record] = Ok ms /\
              Forall2 restores_stored_shape [system_record; user_record] ms).
Proof.
  split.
  - assert (E : Exists (fun r => nullish r = true) [user_record; JNull]).
    { apply Exists_cons_tl. apply Exists_cons_hd. reflexivity. }
    split; [|exact E].
    exact (proj2 (proj1 (reconstruct_fails_iff_null_record [user_record; JNull])) E).
  - eexists. split; [reflexivity|].
    exact (proj2 (reconstruct_fails_iff_null_record [system_record; user_record]) _ eq_refl).
Defined.

(** C3 as stated fails: a record with role system is outside
    {user, assistant}, yet reconstruction returns a Message, with role
    system, instead of an error. *)
Lemma reconstruct_accepts_unknown_role :
  ~ (forall rs, fails (reconstruct rs) <-> Exists (fun r => ~ valid_role r) rs).
Proof.
  intros H.
  destruct (H [system_record]) as [_ Hfail].
  destruct Hfail as [e He].
  - apply Exists_cons_hd. unfold valid_role. cbn. intros [C|C]; discriminate C.
  - cbn in He. discriminate He.
Qed.

End Reconstruction.

(** ** Sending *)

Section Sending.

Lemma sendMessage_cont (text : option string) (st st' : State) (p : Pending) :
  sendMessage text st = (st', Some p) -> cont p = Send.
Proof.
  unfold sendMessage.
  destruct (negb (truthy_str (trim (text_or_input text st))) || loading st).
  - intros H. discriminate H.
  - destruct (sessionId st) as [sid|]; [destruct (truthy_str sid)|];
      intros H; injection H as _ <-; reflexivity.
Qed.

Lemma sendMessage_started (text : option string) (st st' : State) (p : Pending) :
  sendMessage text st = (st', Some p) ->
  st' = setLoading true
          (setMessages (messages st ++ [userMsg (trim (text_or_input text st))])
             (setInput "" st)).
Proof.
  unfold sendMessage.
  destruct (negb (truthy_str (trim (text_or_input text st))) || loading st).
  - intros H. discriminate H.
  - destruct (sessionId st) as [sid|]; [destruct (truthy_str sid)|];
      intros H; injection H as <- _; reflexivity.
Qed.

(** C2, as the code has it: when the response to a send, on the persistent
    path or on the stateless one, carries a non-empty uploaded_policy_ids,
    the accumulated policy-id context becomes exactly that list (the ids
    held before are not kept); for a response without such ids, absent or
    empty, the context is unchanged. *)
Theorem send_response_replaces_policy_ids
    (text : option string) (st0 st1 : State) (p : Pending)
    (data : ChatData) (st : State) :
  sendMessage text st0 = (st1, Some p) ->
  exists st',
    resume (cont p) (Ok (ChatReply data)) st = Some (st', None) /\
    sessionPolicyIds st' =
      match data_uploaded_policy_ids data with
      | Some (x :: xs) => x :: xs
      | _ => sessionPolicyIds st
      end.
Proof.
  intros H. rewrite (sendMessage_cont _ _ _ _ H). cbn.
  eexists. split; [reflexivity|].
  unfold track_uploaded.
  destruct (data_uploaded_policy_ids data) as [[|x xs]|]; reflexivity.
Qed.

Lemma send_response_replaces_policy_ids_witness :
  let st0 := setSessionPolicyIds ["old"] (setSessionId (Some "s1") (initial (Some "s1"))) in
  exists st',
    resume Send (Ok (ChatReply (plain_reply "results" "Found 2" (Some ["p1"; "p2"]))))
      (fst (sendMessage (Some "hello") st0)) = Some (st', None) /\
    sessionPolicyIds st' = ["p1"; "p2"].
Proof.
  intros st0.
  exact (send_response_replaces_policy_ids (Some "hello") st0
           (fst (sendMessage (Some "hello") st0))
           (mkPending (sendChatMessage "s1" "hello") Send)
           (plain_reply "results" "Found 2" (Some ["p1"; "p2"]))
           (fst (sendMessage (Some "hello") st0))
           eq_refl).
Defined.

(** C2 as stated fails: in a restored persistent session the ids of a
    response are taken into the accumulated context although the send went
    through [sendChatMessage], and the ids of the next response replace the
    earlier ones instead of joining them. *)
Lemma persistent_send_overwrites_policy_ids :
  exists s s',
    run (mount (Some "s1")) persistent_trace = Some s /\
    inflight s = [mkPending (sendChatMessage "s1" "and maternity?") Send] /\
    sessionPolicyIds (ui s) = ["old"] /\
    step s (Settle 0 (Ok (ChatReply (plain_reply "results" "Found 2" (Some ["p1"; "p2"])))))
      = Some s' /\
    sessionPolicyIds (ui s') = ["p1"; "p2"] /\
    ~ In "old" (sessionPolicyIds (ui s')).
Proof.
  eexists. eexists.
  split; [vm_compute; reflexivity|].
  split; [reflexivity|].
  split; [reflexivity|].
  split; [vm_compute; reflexivity|].
  split; [reflexivity|].
  cbn. intros [C|[C|[]]]; discriminate C.
Qed.

(** C6: a send that goes ahead while there is no active session id calls
    the stateless chat operation with the role and content of every
    Message of the transcript, in order, followed by the user's new
    utterance as the last entry, and with the accumulated policy ids. *)
Theorem stateless_send_replays_transcript (text : option string) (st : State) :
  truthy_id (sessionId st) = false ->
  loading st = false ->
  truthy_str (trim (text_or_input text st)) = true ->
  exists st',
    sendMessage text st =
      (st', Some (mkPending
                    (discoverChat
                       (map (fun m => (role m, content m)) (messages st)
                          ++ [(JStr "user", JStr (trim (text_or_input text st)))])
                       (sessionPolicyIds st))
                    Send)) /\
    messages st' = messages st ++ [userMsg (trim (text_or_input text st))].
Proof.
  intros Hid Hl Ht. unfold sendMessage. rewrite Hl, Ht. cbn [negb orb].
  unfold apiMessages_of. rewrite map_app. cbn [map userMsg role content].
  unfold truthy_id in Hid.
  destruct (sessionId st) as [sid|]; [rewrite Hid|];
    (eexists; split; [reflexivity|reflexivity]).
Qed.

Lemma stateless_send_replays_transcript_witness :
  exists st',
    sendMessage (Some "  best plan for two ") (initial None) =
      (st', Some (mkPending
                    (discoverChat
                       [(JStr "assistant", content GREETING);
                        (JStr "user", JStr "best plan for two")] [])
                    Send)) /\
    messages st' = [GREETING; userMsg "best plan for two"].
Proof.
  exact (stateless_send_replays_transcript (Some "  best plan for two ") (initial None)
           eq_refl eq_refl eq_refl).
Defined.

(** C7: when the call of a send fails, whichever of the two calls it was,
    resuming the send appends the one fixed assistant Message of kind
    question with the apology text, starts no further call, and leaves the
    accumulated policy ids as they were; the user's turn appended when the
    send started stays in the transcript. *)
Theorem failed_send_appends_apology
    (text : option string) (st st1 : State) (p : Pending) (e : Exn) :
  sendMessage text st = (st1, Some p) ->
  (forall st2, exists st3,
      resume (cont p) (Throw e) st2 = Some (st3, None) /\
      messages st3 = messages st2 ++ [APOLOGY] /\
      sessionPolicyIds st3 = sessionPolicyIds st2 /\
      loading st3 = false) /\
  (exists st3,
      resume (cont p) (Throw e) st1 = Some (st3, None) /\
      messages st3 = messages st ++ [userMsg (trim (text_or_input text st)); APOLOGY] /\
      sessionPolicyIds st3 = sessionPolicyIds st) /\
  role APOLOGY = JStr "assistant" /\
  type APOLOGY = JStr "question" /\
  content APOLOGY = JStr "Sorry, something went wrong. Please try again.".
Proof.
  intros H. rewrite (sendMessage_cont _ _ _ _ H).
  rewrite (sendMessage_started _ _ _ _ H).
  split; [|split].
  - intros st2. eexists. cbn. repeat split.
  - eexists. cbn. split; [reflexivity|]. split; [|reflexivity].
    rewrite <- app_assoc. reflexivity.
  - repeat split.
Qed.

Lemma failed_send_appends_apology_witness :
  exists st3,
    resume Send (Throw RequestFailed) (fst (sendMessage (Some "hi") (initial None)))
      = Some (st3, None) /\
    messages st3 = [GREETING; userMsg "hi"; APOLOGY] /\
    sessionPolicyIds st3 = [].
Proof.
  exact (proj1 (proj2 (failed_send_appends_apology (Some "hi") (initial None)
           (fst (sendMessage (Some "hi") (initial None)))
           (mkPending (discoverChat (apiMessages_of [GREETING; userMsg "hi"]) []) Send)
           RequestFailed eq_refl))).
Defined.

End Sending.

Lemma ui_of_suspend (s : Sys) (r : State * option Pending) : ui (suspend s r) = fst r.
Proof. reflexivity. Qed.

(** ** Sessions *)

Section Sessions.

(** A successful switch and a successful creation both empty the selection
    and drop the comparison. *)
Lemma switchSession_clears_selection (sid : string) (d : option (list JsVal))
    (msgs : list Message) (st : State) :
  let st' := switchSession_commit sid msgs st in
  messages st' = msgs /\ selected st' = [] /\ compareResult st' = JNull /\
  sessionId st' = Some sid /\ storage st' = Some sid.
Proof. cbn. repeat split. Qed.

Lemma startNewSession_clears_selection (session_id : string) (st : State) :
  let st' := startNewSession_created (Ok session_id) st in
  messages st' = [GREETING] /\ selected st' = [] /\ compareResult st' = JNull /\
  sessionId st' = Some session_id /\ storage st' = Some session_id.
Proof. cbn. repeat split. Qed.

Lemma startNewSession_failure (e : Exn) (st : State) :
  let st' := startNewSession_created (Throw e) st in
  messages st' = [GREETING] /\ selected st' = selected st /\
  compareResult st' = compareResult st.
Proof. cbn. repeat split. Qed.

(** C4 at the creation-failure fallback: with a results transcript, two
    policies selected and a comparison on display, "New conversation"
    against an unreachable backend resets the transcript to the greeting
    and leaves both the selection and the comparison in place. *)
Theorem new_session_failure_keeps_selection :
  exists s0 s,
    run (mount None) (removelast new_session_failure_trace) = Some s0 /\
    List.length (messages (ui s0)) = 3 /\
    run (mount None) new_session_failure_trace = Some s /\
    messages (ui s) = [GREETING] /\
    ids (selected (ui s)) = ["p1"; "p2"] /\
    compareResult (ui s) = JObj [("rows", JArr [])].
Proof.
  eexists. eexists.
  split; [vm_compute; reflexivity|].
  split; [reflexivity|].
  split; [vm_compute; reflexivity|].
  repeat split.
Qed.

(** C5: at startup, when the slot holds an id and fetching that session
    fails, the slot is emptied and a creation is requested; once the
    creation answers, the new id is in the slot and is the active session
    id, and the transcript is exactly the default greeting. *)
Theorem expired_session_is_replaced (stored new_id : string) (e : Exn) :
  truthy_str stored = true ->
  exists s1 s2,
    inflight (mount (Some stored)) = [mkPending (getChatSession stored) (InitRestore stored)] /\
    step (mount (Some stored)) (Settle 0 (Throw e)) = Some s1 /\
    storage (ui s1) = None /\
    inflight s1 = [mkPending createChatSession InitCreate] /\
    step s1 (Settle 0 (Ok (CreatedReply new_id))) = Some s2 /\
    storage (ui s2) = Some new_id /\
    sessionId (ui s2) = Some new_id /\
    messages (ui s2) = [GREETING] /\
    sessionLoading (ui s2) = false /\
    inflight s2 = [].
Proof.
  intros Hs.
  assert (Hm : mount (Some stored) =
               mkSys (setSessionLoading true (initial (Some stored)))
                     [mkPending (getChatSession stored) (InitRestore stored)]).
  { unfold mount, initSession. cbn. rewrite Hs. reflexivity. }
  rewrite Hm. eexists. eexists.
  split; [reflexivity|].
  split; [cbn; reflexivity|].
  split; [reflexivity|].
  split; [reflexivity|].
  split; [cbn; reflexivity|].
  repeat split.
Qed.

Lemma expired_session_is_replaced_witness :
  exists s1 s2,
    inflight (mount (Some "gone")) = [mkPending (getChatSession "gone") (InitRestore "gone")] /\
    step (mount (Some "gone")) (Settle 0 (Throw RequestFailed)) = Some s1 /\
    storage (ui s1) = None /\
    inflight s1 = [mkPending createChatSession InitCreate] /\
    step s1 (Settle 0 (Ok (CreatedReply "fresh"))) = Some s2 /\
    storage (ui s2) = Some "fresh" /\
    sessionId (ui s2) = Some "fresh" /\
    messages (ui s2) = [GREETING] /\
    sessionLoading (ui s2) = false /\
    inflight s2 = [].
Proof.
  exact (expired_session_is_replaced "gone" "fresh" RequestFailed eq_refl).
Defined.

(** When the creation fails as well, the page stays without a session id
    and with an empty slot: the stateless mode. *)
Lemma unreachable_backend_is_stateless (stored : string) (e e' : Exn) :
  truthy_str stored = true ->
  exists s,
    run (mount (Some stored)) [Settle 0 (Throw e); Settle 0 (Throw e')] = Some s /\
    sessionId (ui s) = None /\ storage (ui s) = None /\
    messages (ui s) = [GREETING] /\ inflight s = [].
Proof.
  intros Hs. unfold mount, initSession. cbn. rewrite Hs. cbn.
  eexists. repeat split.
Qed.

End Sessions.

(** ** Selection *)

Section Selection.

Lemma find_has_id_some (i : string) (prev : list SelectionEntry) :
  In i (ids prev) -> exists p, find (has_id i) prev = Some p.
Proof.
  induction prev as [|q prev IH]; cbn; [intros []|].
  intros [H|H].
  - unfold has_id at 1. rewrite H, String.eqb_refl. eauto.
  - destruct (has_id i q); eauto.
Qed.

Lemma find_has_id_none (i : string) (prev : list SelectionEntry) :
  ~ In i (ids prev) -> find (has_id i) prev = None.
Proof.
  induction prev as [|q prev IH]; cbn; [reflexivity|].
  intros H. unfold has_id at 1.
  destruct (String.eqb_spec (entry_id q) i) as [E|E].
  - exfalso. apply H. left. exact E.
  - apply IH. intros C. apply H. right. exact C.
Qed.

Lemma ids_filter_out (i : string) (prev : list SelectionEntry) :
  ~ In i (ids (filter (fun p => negb (has_id i p)) prev)).
Proof.
  unfold ids. rewrite in_map_iff. intros (p & E & Hin).
  apply filter_In in Hin. destruct Hin as [_ Hn].
  unfold has_id in Hn. rewrite E, String.eqb_refl in Hn. discriminate Hn.
Qed.

Lemma NoDup_ids_filter (f : SelectionEntry -> bool) (prev : list SelectionEntry) :
  NoDup (ids prev) -> NoDup (ids (filter f prev)).
Proof.
  induction prev as [|q prev IH]; cbn; [intros; constructor|].
  intros H. inversion H as [|? ? Hq Hprev]; subst.
  destruct (f q); cbn; [constructor|]; auto.
  intros C. apply Hq. unfold ids in *. rewrite in_map_iff in *.
  destruct C as (p & E & Hin). apply filter_In in Hin. exists p. tauto.
Qed.

Lemma length_filter_le {A} (f : A -> bool) (l : list A) :
  List.length (filter f l) <= List.length l.
Proof.
  induction l as [|a l IH]; cbn; [lia|]. destruct (f a); cbn; lia.
Qed.

(** The three cases of one call. *)
Lemma toggle_cases (i name : string) (prev : list SelectionEntry) :
  (In i (ids prev) ->
     toggle i name prev = filter (fun p => negb (has_id i p)) prev /\
     ~ In i (ids (toggle i name prev))) /\
  (~ In i (ids prev) -> List.length prev < 3 ->
     toggle i name prev = prev ++ [mkEntry i name]) /\
  (~ In i (ids prev) -> 3 <= List.length prev -> toggle i name prev = prev).
Proof.
  unfold toggle. split; [|split].
  - intros H. destruct (find_has_id_some i prev H) as (p & E). rewrite E.
    split; [reflexivity | apply ids_filter_out].
  - intros H Hl. rewrite (find_has_id_none i prev H).
    destruct (Nat.leb_spec 3 (List.length prev)); [lia | reflexivity].
  - intros H Hl. rewrite (find_has_id_none i prev H).
    destruct (Nat.leb_spec 3 (List.length prev)); [reflexivity | lia].
Qed.

Lemma toggle_bounded_set (i name : string) (prev : list SelectionEntry) :
  bounded_set prev -> bounded_set (toggle i name prev).
Proof.
  intros [Hl Hn]. unfold bounded_set, toggle.
  destruct (find (has_id i) prev) as [p|] eqn:E.
  - split.
    + pose proof (length_filter_le (fun p => negb (has_id i p)) prev). lia.
    + apply NoDup_ids_filter. exact Hn.
  - destruct (Nat.leb_spec 3 (List.length prev)) as [H3|H3].
    + split; assumption.
    + split.
      * rewrite length_app. cbn. lia.
      * unfold ids. rewrite map_app. cbn.
        apply NoDup_app; [exact Hn | repeat constructor; intros [] |].
        intros x Hx [C|[]]. subst x.
        destruct (find_has_id_some i prev Hx) as (p & Ep). congruence.
Qed.

Lemma toggles_bounded_set (calls : list (string * string)) (prev : list SelectionEntry) :
  bounded_set prev -> bounded_set (toggles calls prev).
Proof.
  unfold toggles. revert prev.
  induction calls as [|c calls IH]; intros prev H; cbn; [exact H|].
  apply IH. apply toggle_bounded_set. exact H.
Qed.

(** C8: after any sequence of toggle calls on the empty Selection Set the
    set has at most 3 members and no id twice, and the next call removes
    the id if it is present (whatever the size), appends it if it is absent
    and fewer than 3 are held, and changes nothing if it is absent and 3
    are held. *)
Theorem toggle_keeps_selection_bounded (calls : list (string * string)) (i name : string) :
  let sel := toggles calls [] in
  List.length sel <= 3 /\
  NoDup (ids sel) /\
  (In i (ids sel) ->
     toggle i name sel = filter (fun p => negb (has_id i p)) sel /\
     ~ In i (ids (toggle i name sel))) /\
  (~ In i (ids sel) -> List.length sel < 3 ->
     toggle i name sel = sel ++ [mkEntry i name]) /\
  (~ In i (ids sel) -> List.length sel = 3 -> toggle i name sel = sel).
Proof.
  intros sel.
  assert (B : bounded_set sel).
  { apply toggles_bounded_set. split; [cbn; lia | constructor]. }
  destruct B as [Hl Hn].
  destruct (toggle_cases i name sel) as (Hp & Ha & Hf).
  repeat split; try assumption.
  - apply Hp; assumption.
  - apply Hp; assumption.
  - intros H H3. apply Hf; [exact H | lia].
Qed.

Lemma toggle_keeps_selection_bounded_witness :
  let sel := toggles [("p1", "A"); ("p2", "B"); ("p3", "C")] [] in
  toggle "p4" "D" sel = sel /\
  ids (toggle "p2" "B" sel) = ["p1"; "p3"] /\
  List.length sel <= 3.
Proof.
  intros sel.
  pose proof (toggle_keeps_selection_bounded
                [("p1", "A"); ("p2", "B"); ("p3", "C")] "p4" "D") as H4.
  pose proof (toggle_keeps_selection_bounded
                [("p1", "A"); ("p2", "B"); ("p3", "C")] "p2" "B") as H2.
  cbv zeta in H4, H2. fold sel in H4, H2.
  destruct H4 as (Hl & _ & _ & _ & Hfull).
  destruct H2 as (_ & _ & Hpresent & _).
  split; [|split].
  - apply Hfull; [|reflexivity].
    cbn. intros [C|[C|[C|[]]]]; discriminate C.
  - destruct Hpresent as [E _].
    + cbn. right. left. reflexivity.
    + rewrite E. reflexivity.
  - exact Hl.
Defined.

(** C10: every call of toggleCompare, whether it adds the id, removes it or
    is turned down at 3, leaves the comparison result null. *)
Theorem toggleCompare_resets_compareResult (i name : string) (st : State) :
  compareResult (toggleCompare i name st) = JNull /\
  selected (toggleCompare i name st) = toggle i name (selected st).
Proof. split; reflexivity. Qed.

(** The bound holds in the page as a whole: nothing but [toggle] and the
    resets to [[]] ever writes [selected]. *)
Lemma resume_selected (k : Cont) (o : Result Reply) (st st' : State) (q : option Pending) :
  resume k o st = Some (st', q) -> selected st' = selected st \/ selected st' = [].
Proof.
  destruct k; destruct o as [[d|sid'|d|d|d|]|e]; cbn; try discriminate;
    intros H; injection H as H; revert H;
    unfold initSession_restored, initSession_expired, initSession_created,
      loadSessionHistory_settled, switchSession_loaded, startNewSession_created,
      handleDeleteSession_deleted, startNewSession, sendMessage_settled,
      handleCompare_settled, track_uploaded;
    repeat match goal with
           | |- context [match ?x with _ => _ end] => destruct x
           end;
    intros H; try injection H as <- <-; try injection H as <-; subst;
    (left; reflexivity) || (right; reflexivity).
Qed.

Lemma step_bounded_set (s s' : Sys) (e : Event) :
  step s e = Some s' -> bounded_set (selected (ui s)) -> bounded_set (selected (ui s')).
Proof.
  intros Hstep B. destruct e; unfold step in Hstep.
  - injection Hstep as <-. exact B.
  - injection Hstep as <-. unfold sendMessage.
    repeat match goal with
           | |- context [if ?x then _ else _] => destruct x
           | |- context [match sessionId ?x with _ => _ end] => destruct (sessionId x)
           end; exact B.
  - injection Hstep as <-. exact B.
  - injection Hstep as <-. exact B.
  - injection Hstep as <-. exact B.
  - injection Hstep as <-. exact B.
  - injection Hstep as <-. exact B.
  - injection Hstep as <-. apply toggle_bounded_set. exact B.
  - injection Hstep as <-. unfold handleCompare.
    destruct (List.length (selected (ui s)) <? 2)%nat; exact B.
  - destruct (nth_error (inflight s) n) as [p|]; [|discriminate].
    destruct (settles (request p) o); [|discriminate].
    destruct (resume (cont p) o (ui s)) as [[st' q]|] eqn:Er; [|discriminate].
    injection Hstep as <-. rewrite ui_of_suspend. cbn [fst].
    destruct (resume_selected _ _ _ _ _ Er) as [-> | ->]; [exact B|].
    split; [cbn; lia | constructor].
Qed.

Lemma selection_bounded_in_every_run (slot : option string) (es : list Event) (s : Sys) :
  run (mount slot) es = Some s -> bounded_set (selected (ui s)).
Proof.
  assert (G : forall es s0 s1, run s0 es = Some s1 ->
                bounded_set (selected (ui s0)) -> bounded_set (selected (ui s1))).
  { clear. induction es as [|e es IH]; intros s0 s1 Hrun B; cbn in Hrun.
    - injection Hrun as <-. exact B.
    - destruct (step s0 e) as [s'|] eqn:Es; [|discriminate].
      apply (IH _ _ Hrun). apply (step_bounded_set _ _ _ Es B). }
  intros Hrun. apply (G _ _ _ Hrun).
  unfold mount, initSession. cbn.
  destruct slot as [stored|]; [destruct (truthy_str stored)|];
    (split; [cbn; lia | constructor]).
Qed.

End Selection.

(** ** The in-flight guard *)

Section Guard.

Lemma sendMessage_while_loading (text : option string) (st : State) :
  loading st = true -> sendMessage text st = (st, None).
Proof.
  intros H. unfold sendMessage. rewrite H, orb_true_r. reflexivity.
Qed.

Lemma sends_inflight_app (l l' : list Pending) :
  sends_inflight (l ++ l') = sends_inflight l + sends_inflight l'.
Proof. unfold sends_inflight. rewrite filter_app, length_app. reflexivity. Qed.

Lemma sends_inflight_remove (n : nat) (l : list Pending) (p : Pending) :
  nth_error l n = Some p ->
  sends_inflight l = sends_inflight (remove_nth n l) + (if is_send p then 1 else 0).
Proof.
  unfold sends_inflight. revert n.
  induction l as [|a l IH]; intros [|n]; cbn; try discriminate.
  - intros H. injection H as ->. destruct (is_send p); cbn; lia.
  - intros H. specialize (IH n H). destruct (is_send a); cbn; lia.
Qed.

Lemma suspend_none (s : Sys) : suspend s (ui s, None) = s.
Proof. destruct s. unfold suspend. cbn. rewrite app_nil_r. reflexivity. Qed.

(** What resuming does to the flag: the continuation of a send clears it
    and starts nothing; every other continuation leaves it alone and starts
    no send. *)
Lemma resume_loading (k : Cont) (o : Result Reply) (st st' : State) (q : option Pending) :
  resume k o st = Some (st', q) ->
  sends_inflight (opt_list q) = 0 /\
  loading st' = match k with Send => false | _ => loading st end.
Proof.
  destruct k; destruct o as [[d|sid'|d|d|d|]|e]; cbn; try discriminate;
    intros H; injection H as H; revert H;
    unfold initSession_restored, initSession_expired, initSession_created,
      loadSessionHistory_settled, switchSession_loaded, startNewSession_created,
      handleDeleteSession_deleted, startNewSession, sendMessage_settled,
      handleCompare_settled, track_uploaded;
    repeat match goal with
           | |- context [match ?x with _ => _ end] => destruct x
           end;
    intros H; try injection H as <- <-; try injection H as <-; subst;
    split; reflexivity.
Qed.

Lemma sends_suspend (s : Sys) (st : State) (q : option Pending) :
  sends_inflight (inflight (suspend s (st, q))) =
    sends_inflight (inflight s) + sends_inflight (opt_list q).
Proof. unfold suspend. cbn [inflight fst snd]. apply sends_inflight_app. Qed.

Lemma ui_suspend (s : Sys) (st : State) (q : option Pending) :
  ui (suspend s (st, q)) = st.
Proof. reflexivity. Qed.

Lemma sendMessage_guard (text : option string) (st st' : State) (q : option Pending) :
  sendMessage text st = (st', q) ->
  (q = None /\ st' = st) \/
  (loading st = false /\ loading st' = true /\ sends_inflight (opt_list q) = 1).
Proof.
  unfold sendMessage.
  destruct (negb (truthy_str (trim (text_or_input text st))) || loading st) eqn:G.
  - intros H. injection H as <- <-. left. split; reflexivity.
  - apply orb_false_elim in G. destruct G as [_ G].
    destruct (sessionId st) as [sid|]; [destruct (truthy_str sid)|];
      intros H; injection H as <- <-; right; repeat split; exact G.
Qed.

Lemma handleCompare_guard (st st' : State) (q : option Pending) :
  handleCompare st = (st', q) ->
  loading st' = loading st /\ sends_inflight (opt_list q) = 0.
Proof.
  unfold handleCompare. destruct (List.length (selected st) <? 2)%nat;
    intros H; injection H as <- <-; split; reflexivity.
Qed.

Lemma step_guard (s s' : Sys) (e : Event) :
  (is_switch e = true -> sends_inflight (inflight s) = 0) ->
  step s e = Some s' -> guard_inv s -> guard_inv s'.
Proof.
  unfold guard_inv. intros Hsw Hstep Hinv.
  destruct e; cbn in Hsw; unfold step in Hstep.
  - injection Hstep as <-. exact Hinv.
  - injection Hstep as <-.
    destruct (sendMessage text (ui s)) as [st' q] eqn:E.
    rewrite sends_suspend, ui_suspend.
    destruct (sendMessage_guard _ _ _ _ E) as [[-> ->]|(H0 & H1 & Hq)].
    + cbn. rewrite Nat.add_0_r. exact Hinv.
    + rewrite H0 in Hinv. rewrite H1, Hq, Hinv. reflexivity.
  - injection Hstep as <-. unfold loadSessionHistory.
    rewrite sends_suspend, ui_suspend, Hinv. cbn. apply Nat.add_0_r.
  - injection Hstep as <-. exact Hinv.
  - injection Hstep as <-. unfold switchSession.
    rewrite sends_suspend, ui_suspend. rewrite (Hsw eq_refl). reflexivity.
  - injection Hstep as <-. unfold startNewSession.
    rewrite sends_suspend, ui_suspend, Hinv. cbn. apply Nat.add_0_r.
  - injection Hstep as <-. unfold handleDeleteSession.
    rewrite sends_suspend, ui_suspend, Hinv. cbn. apply Nat.add_0_r.
  - injection Hstep as <-. exact Hinv.
  - injection Hstep as <-.
    destruct (handleCompare (ui s)) as [st' q] eqn:E.
    rewrite sends_suspend, ui_suspend.
    destruct (handleCompare_guard _ _ _ E) as [-> ->].
    rewrite Nat.add_0_r. exact Hinv.
  - destruct (nth_error (inflight s) n) as [p|] eqn:En; [|discriminate].
    destruct (settles (request p) o); [|discriminate].
    destruct (resume (cont p) o (ui s)) as [[st' q]|] eqn:Er; [|discriminate].
    injection Hstep as <-.
    destruct (resume_loading _ _ _ _ _ Er) as [Hq Hl].
    pose proof (sends_inflight_remove n _ p En) as Hr.
    rewrite sends_suspend, ui_suspend, Hq, Hl. cbn [inflight].
    unfold is_send in Hr.
    destruct (cont p); destruct (loading (ui s)); lia.
Qed.

Lemma run_guard (es : list Event) (s s' : Sys) :
  quiet_switches s es = true -> run s es = Some s' -> guard_inv s -> guard_inv s'.
Proof.
  revert s. induction es as [|e es IH]; intros s Hq Hrun Hinv; cbn in *.
  - injection Hrun as <-. exact Hinv.
  - apply andb_prop in Hq. destruct Hq as [He Hes].
    destruct (step s e) as [s1|] eqn:Es; [|discriminate].
    apply (IH s1 Hes Hrun).
    apply (step_guard s s1 e); [|exact Es|exact Hinv].
    intros Hsw. rewrite Hsw in He. cbn in He. apply Nat.eqb_eq. exact He.
Qed.

Lemma no_switch_quiet (es : list Event) (s : Sys) :
  no_switch es = true -> quiet_switches s es = true.
Proof.
  unfold no_switch. revert s.
  induction es as [|e es IH]; intros s H; cbn in *; [reflexivity|].
  apply andb_prop in H. destruct H as [He Hes]. rewrite He. cbn.
  destruct (step s e); [apply IH; exact Hes | reflexivity].
Qed.

Lemma mount_guard (slot : option string) : guard_inv (mount slot).
Proof.
  unfold guard_inv, mount, initSession. cbn.
  destruct slot as [stored|]; [destruct (truthy_str stored)|]; reflexivity.
Qed.

(** C9, as the code has it: while the in-flight flag is set, sendMessage
    returns without appending a user message or starting a backend call.
    The flag is set when a send starts and cleared when it settles, and
    switchSession clears it too; so in every run of the page in which no
    session switch is started while a send is in flight (switches at any
    other moment are allowed), a send in flight means the flag is set, at
    most one send is in flight, and a sendMessage call made before it
    settles changes nothing. *)
Theorem send_guard_with_quiet_switches
    (slot : option string) (es : list Event) (s : Sys) (text : option string) :
  run (mount slot) es = Some s ->
  quiet_switches (mount slot) es = true ->
  0 < sends_inflight (inflight s) ->
  loading (ui s) = true /\
  sends_inflight (inflight s) = 1 /\
  sendMessage text (ui s) = (ui s, None) /\
  step s (ClickSend text) = Some s /\
  (forall st, loading st = true -> sendMessage text st = (st, None)).
Proof.
  intros Hrun Hq Hpos.
  pose proof (run_guard es _ _ Hq Hrun (mount_guard slot)) as Hinv.
  unfold guard_inv in Hinv.
  destruct (loading (ui s)) eqn:Hl; [|lia].
  split; [reflexivity|]. split; [exact Hinv|].
  pose proof (sendMessage_while_loading text (ui s) Hl) as Hno.
  split; [exact Hno|]. split.
  - cbn. rewrite Hno. rewrite suspend_none. reflexivity.
  - intros st. apply sendMessage_while_loading.
Qed.

Lemma send_guard_with_quiet_switches_witness :
  exists s,
    run (mount None)
      [ClickSession "s2"; Settle 1 (Ok (SessionReply None));
       ClickSend (Some "first"); ClickHistory] = Some s /\
    sends_inflight (inflight s) = 1 /\
    step s (ClickSend (Some "second")) = Some s.
Proof.
  eexists. split; [reflexivity|].
  pose proof (send_guard_with_quiet_switches None
                [ClickSession "s2"; Settle 1 (Ok (SessionReply None));
                 ClickSend (Some "first"); ClickHistory]
                _ (Some "second") eq_refl eq_refl (Nat.lt_0_1)) as H.
  split; [exact (proj1 (proj2 H)) | exact (proj1 (proj2 (proj2 (proj2 H))))].
Defined.

(** C9 as stated fails: a send is started, a session is picked from the
    history before it settles, and a second sendMessage call then appends
    its user message and starts a second call while the first is still in
    flight. *)
Lemma switch_lets_second_send_start :
  exists s s',
    run (mount None) overlap_trace = Some s /\
    sends_inflight (inflight s) = 1 /\
    loading (ui s) = false /\
    step s (ClickSend (Some "second")) = Some s' /\
    messages (ui s') = messages (ui s) ++ [userMsg "second"] /\
    sends_inflight (inflight s') = 2.
Proof.
  eexists. eexists.
  split; [vm_compute; reflexivity|].
  split; [reflexivity|].
  split; [reflexivity|].
  split; [vm_compute; reflexivity|].
  split; reflexivity.
Qed.

End Guard.

(** ** Trimming *)

Section Trimming.

Lemma truthy_str_true (s : string) : truthy_str s = true <-> s <> "".
Proof. destruct s; cbn; split; intros H; congruence. Qed.

Example trim_no_break_space : trim (nbsp ++ " hi" ++ em_space ++ nl)%string = "hi".
Proof. reflexivity. Qed.

Example trim_keeps_rupee_sign : trim "₹18k " = "₹18k".
Proof. reflexivity. Qed.

Example no_break_space_only_not_sent :
  send_disabled (setInput (nbsp ++ nbsp)%string (initial None)) = true /\
  sendMessage None (setInput (nbsp ++ nbsp)%string (initial None))
    = (setInput (nbsp ++ nbsp)%string (initial None), None).
Proof. split; reflexivity. Qed.

Lemma trimStart_eq (s : string) :
  trimStart s = match strip_space s with
                | Some r => trimStart r
                | None => s
                end.
Proof.
  destruct s as [|a s1]; [reflexivity|]. cbn [trimStart strip_space].
  destruct (is_ws a); [reflexivity|].
  destruct s1 as [|b s2]; [reflexivity|].
  destruct (is_ws2 a b); [reflexivity|].
  destruct s2 as [|c s3]; [reflexivity|].
  destruct (is_ws3 a b c); reflexivity.
Qed.

Lemma strip_space_shorter (s r : string) :
  strip_space s = Some r -> String.length r < String.length s.
Proof.
  destruct s as [|a s1]; cbn [strip_space]; [discriminate|].
  destruct (is_ws a); [intros H; injection H as <-; cbn; lia|].
  destruct s1 as [|b s2]; [discriminate|].
  destruct (is_ws2 a b); [intros H; injection H as <-; cbn; lia|].
  destruct s2 as [|c s3]; [discriminate|].
  destruct (is_ws3 a b c); [intros H; injection H as <-; cbn; lia | discriminate].
Qed.

(** What [trimStart] returns does not start with white space. *)
Lemma trimStart_clean (s : string) : strip_space (trimStart s) = None.
Proof.
  assert (G : forall n s, String.length s < n -> strip_space (trimStart s) = None).
  { clear. induction n as [|n IH]; intros s Hn; [lia|].
    rewrite trimStart_eq. destruct (strip_space s) as [r|] eqn:E; [|exact E].
    apply IH. apply strip_space_shorter in E. lia. }
  apply (G (S (String.length s))). lia.
Qed.

Lemma trimStart_fixed (t : string) : strip_space t = None -> trimStart t = t.
Proof. intros H. rewrite trimStart_eq, H. reflexivity. Qed.

(** What [trimEnd] returns does not end with white space. *)
Lemma trimEnd_clean (s pre u : string) :
  trimEnd s = (pre ++ u)%string -> is_space u = false.
Proof.
  revert pre u. induction s as [|c s IH]; intros pre u; cbn [trimEnd].
  - destruct pre; cbn; [intros <-; reflexivity | discriminate].
  - destruct (is_space (String c (trimEnd s))) eqn:E.
    + destruct pre; cbn; [intros <-; reflexivity | discriminate].
    + destruct pre as [|d pre]; cbn.
      * intros <-. exact E.
      * intros H. injection H as _ H. apply (IH pre u). exact H.
Qed.

Lemma trimEnd_fixed (t : string) :
  (forall pre u, t = (pre ++ u)%string -> is_space u = false) -> trimEnd t = t.
Proof.
  induction t as [|c t IH]; intros H; cbn [trimEnd]; [reflexivity|].
  rewrite IH.
  - rewrite (H EmptyString (String c t) eq_refl). reflexivity.
  - intros pre u E. apply (H (String c pre) u). cbn. rewrite E. reflexivity.
Qed.

Lemma trimEnd_prefix (s : string) : exists rest, s = (trimEnd s ++ rest)%string.
Proof.
  induction s as [|c s (rest & E)]; cbn [trimEnd]; [exists EmptyString; reflexivity|].
  destruct (is_space (String c (trimEnd s))).
  - exists (String c s). reflexivity.
  - exists rest. cbn. rewrite <- E. reflexivity.
Qed.

Lemma strip_space_prefix (p rest : string) :
  strip_space (p ++ rest)%string = None -> strip_space p = None.
Proof.
  destruct p as [|a [|b [|c p3]]]; cbn; try reflexivity.
  - destruct (is_ws a); [discriminate | reflexivity].
  - destruct (is_ws a); [discriminate|].
    destruct (is_ws2 a b); [discriminate | reflexivity].
  - destruct (is_ws a); [discriminate|].
    destruct (is_ws2 a b); [discriminate|].
    destruct (is_ws3 a b c); [discriminate | reflexivity].
Qed.

(** A trimmed text has no white-space character at its start and none at
    its end. *)
Lemma trim_clean (s : string) :
  strip_space (trim s) = None /\
  (forall pre u, trim s = (pre ++ u)%string -> is_space u = false).
Proof.
  unfold trim. split.
  - destruct (trimEnd_prefix (trimStart s)) as (rest & E).
    apply (strip_space_prefix _ rest). rewrite <- E. apply trimStart_clean.
  - intros pre u. apply trimEnd_clean.
Qed.

Lemma trim_idem (s : string) : trim (trim s) = trim s.
Proof.
  destruct (trim_clean s) as [Hstart Hend].
  unfold trim at 1. rewrite (trimStart_fixed _ Hstart).
  apply trimEnd_fixed. exact Hend.
Qed.

Lemma trimmed_ends (t : string) :
  trim t = t ->
  strip_space t = None /\
  (forall pre u, t = (pre ++ u)%string -> is_space u = false).
Proof. intros E. rewrite <- E. apply trim_clean. Qed.

End Trimming.

(** ** Invariants of the page *)

Section Invariants.

(** The two ways [sendMessage] can go. *)
Lemma sendMessage_cases (text : option string) (st : State) :
  let u := trim (text_or_input text st) in
  ((u = "" \/ loading st = true) /\ sendMessage text st = (st, None)) \/
  (u <> "" /\ loading st = false /\
   exists r,
     sendMessage text st =
       (setLoading true (setMessages (messages st ++ [userMsg u]) (setInput "" st)),
        Some (mkPending r Send)) /\
     ((exists sid, sessionId st = Some sid /\ sid <> "" /\ r = sendChatMessage sid u) \/
      (truthy_id (sessionId st) = false /\
       r = discoverChat (apiMessages_of (messages st) ++ [(JStr "user", JStr u)])
             (sessionPolicyIds st)))).
Proof.
  intros u. unfold sendMessage. fold u.
  destruct (truthy_str u) eqn:Hu; cbn [negb orb].
  - destruct (loading st) eqn:Hl.
    + left. split; [right|]; reflexivity.
    + right. apply truthy_str_true in Hu. split; [exact Hu|]. split; [reflexivity|].
      destruct (sessionId st) as [sid|] eqn:Es; [destruct (truthy_str sid) eqn:Hs|].
      * eexists. split; [reflexivity|]. left. exists sid.
        apply truthy_str_true in Hs. auto.
      * eexists. split; [reflexivity|]. right. split; [exact Hs|].
        unfold apiMessages_of. rewrite map_app. reflexivity.
      * eexists. split; [reflexivity|]. right. split; [reflexivity|].
        unfold apiMessages_of. rewrite map_app. reflexivity.
  - left. split; [left|reflexivity].
    destruct u; [reflexivity | discriminate Hu].
Qed.

Lemma sendMessage_wf (text : option string) (st st' : State) (p : Pending) :
  sendMessage text st = (st', Some p) -> wf_request (request p).
Proof.
  intros H.
  destruct (sendMessage_cases text st) as [[_ E] | (Hu & _ & r & E & Hr)];
    rewrite E in H; [discriminate H|].
  injection H as _ <-. cbn [request].
  destruct Hr as [(sid & _ & Hs & ->) | (_ & ->)]; cbn.
  - split; [exact Hs|]. split; [exact Hu | apply trim_idem].
  - eexists. eexists. split; [reflexivity|]. split; [exact Hu | apply trim_idem].
Qed.

Lemma some_inj {A} (a b : A) : Some a = Some b -> a = b.
Proof. intros H. injection H as H. exact H. Qed.

Lemma reconstruct_cons_nonempty (m : JsVal) (ms : list JsVal) (restored : list Message) :
  reconstruct (m :: ms) = Ok restored -> restored <> [].
Proof.
  unfold reconstruct. cbn.
  destruct (reconstruct_one m); cbn; [|discriminate].
  destruct (mapM reconstruct_one ms); cbn; [|discriminate].
  intros H. injection H as <-. discriminate.
Qed.

Lemma resume_messages (k : Cont) (o : Result Reply) (st st' : State) (q : option Pending) :
  resume k o st = Some (st', q) -> messages st <> [] -> messages st' <> [].
Proof.
  intros H Hne.
  destruct k; destruct o as [[d|sid'|d|d|d|]|e]; unfold resume in H; try discriminate H;
    injection H as H; revert H;
    unfold initSession_restored, initSession_expired, initSession_created,
      loadSessionHistory_settled, switchSession_loaded, switchSession_commit,
      startNewSession_created, handleDeleteSession_deleted, startNewSession,
      sendMessage_settled, handleCompare_settled, track_uploaded;
    try (destruct d as [[|m ms]|]);
    try (destruct (reconstruct (m :: ms)) as [restored|x] eqn:Er;
         [apply reconstruct_cons_nonempty in Er|]);
    repeat match goal with
           | |- context [match ?x with _ => _ end] => destruct x
           end;
    intros H; try injection H as <- <-; try injection H as <-; subst; cbn;
    try assumption; try discriminate;
    try (intros C; apply app_eq_nil in C; destruct C as [_ C]; discriminate C).
Qed.

Lemma resume_request (k : Cont) (o : Result Reply) (st st' : State) (p : Pending) :
  resume k o st = Some (st', Some p) -> request p = createChatSession.
Proof.
  destruct k; destruct o as [[d|sid'|d|d|d|]|e]; unfold resume; try discriminate;
    intros H; apply some_inj in H; revert H;
    unfold initSession_restored, initSession_expired, handleDeleteSession_deleted,
      startNewSession;
    repeat match goal with
           | |- context [match ?x with _ => _ end] => destruct x
           end;
    intros H; try discriminate H; injection H as _ <-; reflexivity.
Qed.

Lemma Forall_remove_nth {A} (P : A -> Prop) (n : nat) (l : list A) :
  Forall P l -> Forall P (remove_nth n l).
Proof.
  revert n. induction l as [|a l IH]; intros [|n] H; cbn; try assumption;
    inversion H; subst; [assumption | constructor; auto].
Qed.

Lemma Forall_suspend (P : Pending -> Prop) (l : list Pending) (q : option Pending) :
  Forall P l -> (forall p, q = Some p -> P p) -> Forall P (l ++ opt_list q).
Proof.
  intros Hl Hq. apply Forall_app. split; [exact Hl|].
  destruct q as [p|]; cbn; [constructor; auto | constructor].
Qed.

Lemma Forall_inflight_suspend (P : Pending -> Prop) (s : Sys) (st : State)
    (q : option Pending) :
  Forall P (inflight s) -> (forall p, q = Some p -> P p) ->
  Forall P (inflight (suspend s (st, q))).
Proof. intros Hl Hq. unfold suspend. cbn [inflight fst snd]. apply Forall_suspend; assumption. Qed.

Lemma handleCompare_wf (st st' : State) (p : Pending) :
  bounded_set (selected st) ->
  handleCompare st = (st', Some p) -> wf_request (request p).
Proof.
  intros [Hl Hn]. unfold handleCompare.
  destruct (Nat.ltb_spec (List.length (selected st)) 2) as [H2|H2];
    intros H; [discriminate H|].
  injection H as _ <-. cbn. rewrite length_map. split; [lia | exact Hn].
Qed.

Lemma step_page_inv (s s' : Sys) (e : Event) :
  step s e = Some s' -> page_inv s -> page_inv s'.
Proof.
  intros Hstep (Hm & Hb & Hw). unfold page_inv.
  pose proof (step_bounded_set s s' e Hstep Hb) as Hb'.
  split; [|split; [exact Hb'|]]; clear Hb';
    destruct e; unfold step in Hstep;
    try (injection Hstep as <-; cbn; first [exact Hm | exact Hw]).
  - injection Hstep as <-. rewrite ui_of_suspend.
    destruct (sendMessage_cases text (ui s)) as [[_ E] | (_ & _ & r & E & _)];
      rewrite E; cbn; [exact Hm|].
    intros C. apply app_eq_nil in C. destruct C as [_ C]. discriminate C.
  - injection Hstep as <-. unfold handleCompare.
    destruct (List.length (selected (ui s)) <? 2)%nat; exact Hm.
  - destruct (nth_error (inflight s) n) as [p|]; [|discriminate].
    destruct (settles (request p) o); [|discriminate].
    destruct (resume (cont p) o (ui s)) as [[st' q]|] eqn:Er; [|discriminate].
    injection Hstep as <-. cbn. exact (resume_messages _ _ _ _ _ Er Hm).
  - injection Hstep as <-.
    destruct (sendMessage text (ui s)) as [st' q] eqn:E.
    apply Forall_inflight_suspend; [exact Hw|]. intros p ->.
    exact (sendMessage_wf _ _ _ _ E).
  - injection Hstep as <-. apply Forall_inflight_suspend; [exact Hw|].
    intros p Hp. injection Hp as <-. exact I.
  - injection Hstep as <-. apply Forall_inflight_suspend; [exact Hw|].
    intros p Hp. injection Hp as <-. exact I.
  - injection Hstep as <-. apply Forall_inflight_suspend; [exact Hw|].
    intros p Hp. injection Hp as <-. exact I.
  - injection Hstep as <-. apply Forall_inflight_suspend; [exact Hw|].
    intros p Hp. injection Hp as <-. exact I.
  - injection Hstep as <-.
    destruct (handleCompare (ui s)) as [st' q] eqn:E.
    apply Forall_inflight_suspend; [exact Hw|]. intros p ->.
    exact (handleCompare_wf _ _ _ Hb E).
  - destruct (nth_error (inflight s) n) as [p|]; [|discriminate].
    destruct (settles (request p) o); [|discriminate].
    destruct (resume (cont p) o (ui s)) as [[st' q]|] eqn:Er; [|discriminate].
    injection Hstep as <-.
    apply Forall_inflight_suspend; [apply Forall_remove_nth; exact Hw|].
    intros p' ->. rewrite (resume_request _ _ _ _ _ Er). exact I.
Qed.

Lemma run_page_inv (es : list Event) (s s' : Sys) :
  run s es = Some s' -> page_inv s -> page_inv s'.
Proof.
  revert s. induction es as [|e es IH]; intros s Hrun Hinv; cbn in Hrun.
  - injection Hrun as <-. exact Hinv.
  - destruct (step s e) as [s1|] eqn:Es; [|discriminate].
    exact (IH s1 Hrun (step_page_inv _ _ _ Es Hinv)).
Qed.

Lemma mount_page_inv (slot : option string) : page_inv (mount slot).
Proof.
  unfold page_inv, mount, initSession. cbn.
  destruct slot as [stored|]; [destruct (truthy_str stored)|]; cbn;
    (split; [discriminate|]; split; [split; [cbn; lia | constructor]|]);
    repeat constructor.
Qed.

End Invariants.

(** ** What holds in every run of the page *)

Section EveryRun.

(** X1: the transcript is never empty.  It starts as the greeting, a
    restore or a switch replaces it only by a non-empty reconstructed list
    or by the greeting, and sends only append. *)
Theorem transcript_never_empty (slot : option string) (es : list Event) (s : Sys) :
  run (mount slot) es = Some s -> messages (ui s) <> [].
Proof.
  intros Hrun. exact (proj1 (run_page_inv es _ _ Hrun (mount_page_inv slot))).
Qed.

Lemma transcript_never_empty_witness :
  exists s,
    run (mount None)
      [Settle 0 (Ok (CreatedReply "s1")); ClickSession "s2";
       Settle 0 (Ok (SessionReply (Some [])))] = Some s /\
    messages (ui s) <> [].
Proof.
  eexists. split; [reflexivity|].
  exact (transcript_never_empty None
           [Settle 0 (Ok (CreatedReply "s1")); ClickSession "s2";
            Settle 0 (Ok (SessionReply (Some [])))] _ eq_refl).
Defined.

(** X2: every comparePolicies call the page has in flight carries 2 or 3
    policy ids, all different. *)
Theorem compare_calls_carry_two_or_three_ids
    (slot : option string) (es : list Event) (s : Sys) (p : Pending)
    (policy_ids : list string) :
  run (mount slot) es = Some s ->
  In p (inflight s) ->
  request p = comparePolicies policy_ids ->
  2 <= List.length policy_ids <= 3 /\ NoDup policy_ids.
Proof.
  intros Hrun Hin Hr.
  destruct (run_page_inv es _ _ Hrun (mount_page_inv slot)) as (_ & _ & Hw).
  rewrite Forall_forall in Hw. specialize (Hw p Hin). rewrite Hr in Hw. exact Hw.
Qed.

Lemma compare_calls_carry_two_or_three_ids_witness :
  2 <= List.length ["p1"; "p2"] <= 3 /\ NoDup ["p1"; "p2"].
Proof.
  exact (compare_calls_carry_two_or_three_ids None
           [ClickCompareToggle "p1" "A"; ClickCompareToggle "p2" "B"; ClickCompare]
           _ (mkPending (comparePolicies ["p1"; "p2"]) Compare) ["p1"; "p2"]
           eq_refl (or_intror (or_introl eq_refl)) eq_refl).
Defined.

(** X3: every chat call the page has in flight carries a user text that is
    not empty and has no white space at either end (no character that
    String.prototype.trim strips, ASCII or not): as the text of a
    persistent send, together with a session id that is not empty, or as
    the last entry, with role user, of the transcript of a stateless
    send. *)
Theorem chat_calls_carry_trimmed_text
    (slot : option string) (es : list Event) (s : Sys) (p : Pending) :
  run (mount slot) es = Some s ->
  In p (inflight s) ->
  (forall sid text, request p = sendChatMessage sid text ->
     sid <> "" /\ text <> "" /\ trim text = text /\ no_space_at_ends text) /\
  (forall apiMessages pids, request p = discoverChat apiMessages pids ->
     exists before text,
       apiMessages = before ++ [(JStr "user", JStr text)] /\
       text <> "" /\ trim text = text /\ no_space_at_ends text).
Proof.
  intros Hrun Hin.
  destruct (run_page_inv es _ _ Hrun (mount_page_inv slot)) as (_ & _ & Hw).
  rewrite Forall_forall in Hw. specialize (Hw p Hin).
  split; intros a b Hr; rewrite Hr in Hw; cbn in Hw.
  - destruct Hw as (Hs & Hne & Ht).
    split; [exact Hs|]. split; [exact Hne|]. split; [exact Ht|].
    exact (trimmed_ends _ Ht).
  - destruct Hw as (before & text & E & Hne & Ht).
    exists before, text.
    split; [exact E|]. split; [exact Hne|]. split; [exact Ht|].
    exact (trimmed_ends _ Ht).
Qed.

Lemma chat_calls_carry_trimmed_text_witness :
  exists before text,
    [(JStr "assistant", content GREETING); (JStr "user", JStr "cover for two")]
      = before ++ [(JStr "user", JStr text)] /\
    text <> "" /\ trim text = text /\ no_space_at_ends text.
Proof.
  exact (proj2 (chat_calls_carry_trimmed_text None
                  [ClickSend (Some (nbsp ++ " cover for two  ")%string)] _
                  (mkPending (discoverChat
                     [(JStr "assistant", content GREETING);
                      (JStr "user", JStr "cover for two")] []) Send)
                  eq_refl (or_intror (or_introl eq_refl))) _ _ eq_refl).
Defined.

Lemma inits_inflight_app (l l' : list Pending) :
  inits_inflight (l ++ l') = inits_inflight l + inits_inflight l'.
Proof. unfold inits_inflight. rewrite filter_app, length_app. reflexivity. Qed.

Lemma inits_inflight_remove (n : nat) (l : list Pending) (p : Pending) :
  nth_error l n = Some p ->
  inits_inflight l = inits_inflight (remove_nth n l) + (if is_init p then 1 else 0).
Proof.
  unfold inits_inflight. revert n.
  induction l as [|a l IH]; intros [|n]; cbn; try discriminate.
  - intros H. injection H as ->. destruct (is_init p); cbn; lia.
  - intros H. specialize (IH n H). destruct (is_init a); cbn; lia.
Qed.

Lemma resume_startup (k : Cont) (o : Result Reply) (st st' : State) (q : option Pending) :
  resume k o st = Some (st', q) ->
  if is_init (mkPending createChatSession k)
  then (inits_inflight (opt_list q) = 1 /\ sessionLoading st' = sessionLoading st) \/
       (inits_inflight (opt_list q) = 0 /\ sessionLoading st' = false)
  else inits_inflight (opt_list q) = 0 /\ sessionLoading st' = sessionLoading st.
Proof.
  destruct k; unfold is_init; cbn [cont];
    destruct o as [[d|sid'|d|d|d|]|e]; unfold resume; try discriminate;
    intros H; apply some_inj in H; revert H;
    unfold initSession_restored, initSession_expired, initSession_created,
      loadSessionHistory_settled, switchSession_loaded, startNewSession_created,
      handleDeleteSession_deleted, startNewSession, sendMessage_settled,
      handleCompare_settled, track_uploaded;
    repeat match goal with
           | |- context [match ?x with _ => _ end] => destruct x
           end;
    intros H; injection H as <- <-; cbn;
    first [ split; reflexivity | left; split; reflexivity | right; split; reflexivity ].
Qed.

Lemma startup_suspend (s : Sys) (st : State) (q : option Pending) :
  sessionLoading st = sessionLoading (ui s) ->
  inits_inflight (opt_list q) = 0 ->
  startup_inv s -> startup_inv (suspend s (st, q)).
Proof.
  unfold startup_inv, suspend. cbn [ui inflight fst snd].
  intros -> Hq Hinv. rewrite inits_inflight_app, Hq, Hinv. apply Nat.add_0_r.
Qed.

Lemma step_startup (s s' : Sys) (e : Event) :
  step s e = Some s' -> startup_inv s -> startup_inv s'.
Proof.
  intros Hstep Hinv.
  destruct e; unfold step in Hstep.
  - injection Hstep as <-. exact Hinv.
  - injection Hstep as <-.
    destruct (sendMessage_cases text (ui s)) as [[_ E] | (_ & _ & r & E & _)];
      rewrite E; apply startup_suspend; try reflexivity; exact Hinv.
  - injection Hstep as <-. apply startup_suspend; try reflexivity; exact Hinv.
  - injection Hstep as <-. exact Hinv.
  - injection Hstep as <-. apply startup_suspend; try reflexivity; exact Hinv.
  - injection Hstep as <-. apply startup_suspend; try reflexivity; exact Hinv.
  - injection Hstep as <-. apply startup_suspend; try reflexivity; exact Hinv.
  - injection Hstep as <-. exact Hinv.
  - injection Hstep as <-. unfold handleCompare.
    destruct (List.length (selected (ui s)) <? 2)%nat;
      apply startup_suspend; try reflexivity; exact Hinv.
  - destruct (nth_error (inflight s) n) as [p|] eqn:En; [|discriminate].
    destruct (settles (request p) o); [|discriminate].
    destruct (resume (cont p) o (ui s)) as [[st' q]|] eqn:Er; [|discriminate].
    injection Hstep as <-.
    pose proof (resume_startup _ _ _ _ _ Er) as Hr.
    pose proof (inits_inflight_remove n _ p En) as Hn.
    unfold startup_inv in *. unfold suspend.
    cbn [ui inflight fst snd]. rewrite inits_inflight_app.
    unfold is_init in Hr, Hn. cbn [cont] in Hr.
    destruct (cont p); destruct (sessionLoading (ui s));
      try destruct Hr as [[Hq Hl] | [Hq Hl]]; try destruct Hr as [Hq Hl];
      rewrite Hq, Hl; lia.
Qed.

(** X4: the startup spinner is on exactly while a call of initSession is
    in flight, and there is never more than one: along every path of the
    startup (restored, expired then created, backend unreachable) the
    spinner goes off when the last startup call settles. *)
Theorem spinner_tracks_startup (slot : option string) (es : list Event) (s : Sys) :
  run (mount slot) es = Some s ->
  inits_inflight (inflight s) = if sessionLoading (ui s) then 1 else 0.
Proof.
  intros Hrun.
  assert (G : forall es s0 s1, run s0 es = Some s1 -> startup_inv s0 -> startup_inv s1).
  { clear. induction es as [|e es IH]; intros s0 s1 Hrun Hinv; cbn in Hrun.
    - injection Hrun as <-. exact Hinv.
    - destruct (step s0 e) as [s'|] eqn:Es; [|discriminate].
      exact (IH _ _ Hrun (step_startup _ _ _ Es Hinv)). }
  apply (G _ _ _ Hrun).
  unfold startup_inv, mount, initSession. cbn.
  destruct slot as [stored|]; [destruct (truthy_str stored)|]; reflexivity.
Qed.

Lemma spinner_tracks_startup_witness :
  exists s,
    run (mount (Some "gone")) [Settle 0 (Throw RequestFailed); ClickSend (Some "hi")] = Some s /\
    inits_inflight (inflight s) = 1 /\ sessionLoading (ui s) = true.
Proof.
  eexists. split; [reflexivity|]. split; [|reflexivity].
  exact (spinner_tracks_startup (Some "gone")
           [Settle 0 (Throw RequestFailed); ClickSend (Some "hi")] _ eq_refl).
Defined.

Lemma step_typing (s s' : Sys) (e : Event) :
  step s e = Some s' ->
  (loading (ui s) = true -> 0 < sends_inflight (inflight s)) ->
  loading (ui s') = true -> 0 < sends_inflight (inflight s').
Proof.
  intros Hstep Hinv.
  destruct e; unfold step in Hstep;
    try (injection Hstep as <-; cbn [ui inflight suspend fst snd loadSessionHistory
           startNewSession handleDeleteSession];
         rewrite ?sends_inflight_app; intros Hl; specialize (Hinv Hl); lia).
  - injection Hstep as <-.
    destruct (sendMessage text (ui s)) as [st' q] eqn:E.
    rewrite sends_suspend, ui_suspend.
    destruct (sendMessage_guard _ _ _ _ E) as [[-> ->]|(_ & _ & Hq)].
    + intros Hl. specialize (Hinv Hl). lia.
    + intros _. lia.
  - injection Hstep as <-. cbn. intros C. discriminate C.
  - injection Hstep as <-.
    destruct (handleCompare (ui s)) as [st' q] eqn:E.
    rewrite sends_suspend, ui_suspend.
    destruct (handleCompare_guard _ _ _ E) as [-> ->].
    intros Hl. specialize (Hinv Hl). lia.
  - destruct (nth_error (inflight s) n) as [p|] eqn:En; [|discriminate].
    destruct (settles (request p) o); [|discriminate].
    destruct (resume (cont p) o (ui s)) as [[st' q]|] eqn:Er; [|discriminate].
    injection Hstep as <-.
    destruct (resume_loading _ _ _ _ _ Er) as [Hq Hl].
    pose proof (sends_inflight_remove n _ p En) as Hr.
    rewrite sends_suspend, ui_suspend, Hq, Hl. cbn [inflight].
    unfold is_send in Hr.
    destruct (cont p); intros Hl'; try discriminate Hl'; specialize (Hinv Hl'); lia.
Qed.

(** X5: whenever the typing indicator is on ([loading] is set), a send is
    in flight, with or without session switches in between; so the
    indicator cannot stay on once every send has settled. *)
Theorem typing_indicator_has_send (slot : option string) (es : list Event) (s : Sys) :
  run (mount slot) es = Some s ->
  loading (ui s) = true ->
  0 < sends_inflight (inflight s).
Proof.
  intros Hrun.
  assert (G : forall es s0 s1, run s0 es = Some s1 ->
                (loading (ui s0) = true -> 0 < sends_inflight (inflight s0)) ->
                loading (ui s1) = true -> 0 < sends_inflight (inflight s1)).
  { clear. induction es as [|e es IH]; intros s0 s1 Hrun Hinv; cbn in Hrun.
    - injection Hrun as <-. exact Hinv.
    - destruct (step s0 e) as [s'|] eqn:Es; [|discriminate].
      exact (IH _ _ Hrun (step_typing _ _ _ Es Hinv)). }
  apply (G _ _ _ Hrun).
  unfold mount, initSession. cbn.
  destruct slot as [stored|]; [destruct (truthy_str stored)|]; cbn; intros C; discriminate C.
Qed.

Lemma typing_indicator_has_send_witness :
  exists s,
    run (mount None) (overlap_trace ++ [ClickSend (Some "second")]) = Some s /\
    loading (ui s) = true /\ 0 < sends_inflight (inflight s).
Proof.
  eexists. split; [reflexivity|]. split; [reflexivity|].
  exact (typing_indicator_has_send None (overlap_trace ++ [ClickSend (Some "second")])
           _ eq_refl eq_refl).
Defined.

End EveryRun.

(** ** Startup *)

Section Startup.

Lemma mount_stored (stored : string) :
  truthy_str stored = true ->
  mount (Some stored) =
    mkSys (setSessionLoading true (initial (Some stored)))
          [mkPending (getChatSession stored) (InitRestore stored)].
Proof. intros Hs. unfold mount, initSession. cbn. rewrite Hs. reflexivity. Qed.

Lemma mount_fresh (slot : option string) :
  truthy_id slot = false ->
  mount slot =
    mkSys (setSessionLoading true (initial slot)) [mkPending createChatSession InitCreate].
Proof.
  intros Hs. unfold mount, initSession. cbn.
  destruct slot as [stored|]; [cbn in Hs; rewrite Hs|]; reflexivity.
Qed.

(** X6: at startup, when the slot holds an id and that session is fetched
    with records none of which is null, the page ends with that id as the
    active session and still in the slot, the spinner off and nothing in
    flight; the transcript is the reconstruction of the records, one
    Message per record, or stays the default greeting when the session has
    no records (an empty or missing list). *)
Theorem stored_session_is_restored (stored : string) (d : option (list JsVal)) :
  truthy_str stored = true ->
  (forall l, d = Some l -> Forall (fun r => nullish r = false) l) ->
  exists s,
    step (mount (Some stored)) (Settle 0 (Ok (SessionReply d))) = Some s /\
    inflight s = [] /\
    sessionId (ui s) = Some stored /\
    storage (ui s) = Some stored /\
    sessionLoading (ui s) = false /\
    (forall m ms, d = Some (m :: ms) ->
       reconstruct (m :: ms) = Ok (messages (ui s)) /\
       List.length (messages (ui s)) = S (List.length ms)) /\
    (d = None \/ d = Some [] -> messages (ui s) = [GREETING]).
Proof.
  intros Hs Hd. rewrite (mount_stored stored Hs).
  destruct d as [[|m ms]|].
  - eexists. split; [reflexivity|]. cbn. repeat split; try discriminate.
  - destruct (reconstruct_objects (m :: ms) (Hd _ eq_refl)) as (restored & E & F).
    eexists. split.
    + unfold step. cbn [inflight nth_error request settles answers cont resume ui].
      unfold initSession_restored. rewrite E. reflexivity.
    + cbn. split; [reflexivity|]. split; [reflexivity|]. split; [reflexivity|].
      split; [reflexivity|]. split.
      * intros m' ms' H. injection H as <- <-. split; [exact E|].
        apply Forall2_length in F. cbn in F. symmetry. exact F.
      * intros [H|H]; discriminate H.
  - eexists. split; [reflexivity|]. cbn. repeat split; try discriminate.
Qed.

Lemma stored_session_is_restored_witness :
  exists s,
    step (mount (Some "s1")) (Settle 0 (Ok (SessionReply (Some [user_record; results_record]))))
      = Some s /\
    sessionId (ui s) = Some "s1" /\
    List.length (messages (ui s)) = 2.
Proof.
  destruct (stored_session_is_restored "s1" (Some [user_record; results_record]) eq_refl)
    as (s & Hstep & _ & Hid & _ & _ & Hm & _).
  - intros l H. injection H as <-. repeat constructor.
  - exists s. split; [exact Hstep|]. split; [exact Hid|].
    exact (proj2 (Hm _ _ eq_refl)).
Defined.

(** X7: a null record among the fetched records makes the reconstruction
    throw inside the inner try of initSession, and the page treats the
    session as expired: the slot is emptied, a creation is requested, and
    the transcript and the session id are left as they were. *)
Theorem unreadable_session_is_dropped (stored : string) (records : list JsVal) :
  truthy_str stored = true ->
  Exists (fun r => nullish r = true) records ->
  exists s,
    step (mount (Some stored)) (Settle 0 (Ok (SessionReply (Some records)))) = Some s /\
    storage (ui s) = None /\
    sessionId (ui s) = None /\
    messages (ui s) = [GREETING] /\
    sessionLoading (ui s) = true /\
    inflight s = [mkPending createChatSession InitCreate].
Proof.
  intros Hs Hn. rewrite (mount_stored stored Hs).
  pose proof (reconstruct_null_record records Hn) as E.
  destruct records as [|m ms]; [inversion Hn|].
  eexists. split.
  - unfold step. cbn [inflight nth_error request settles answers cont resume ui].
    unfold initSession_restored. rewrite E. reflexivity.
  - cbn. repeat split.
Qed.

Lemma unreadable_session_is_dropped_witness :
  exists s,
    step (mount (Some "s1")) (Settle 0 (Ok (SessionReply (Some [user_record; JNull])))) = Some s /\
    storage (ui s) = None /\
    sessionId (ui s) = None /\
    messages (ui s) = [GREETING] /\
    sessionLoading (ui s) = true /\
    inflight s = [mkPending createChatSession InitCreate].
Proof.
  exact (unreadable_session_is_dropped "s1" [user_record; JNull] eq_refl
           (Exists_cons_tl user_record
              (Exists_cons_hd (fun r => nullish r = true) JNull [] eq_refl))).
Defined.

(** X8: with nothing in the slot, or with the empty string in it, startup
    asks for no stored session and goes straight to a creation; when the
    creation answers, the new id is in the slot and is the active session
    id, the transcript is the greeting and the spinner is off. *)
Theorem empty_slot_creates_session (slot : option string) (new_id : string) :
  truthy_id slot = false ->
  exists s,
    inflight (mount slot) = [mkPending createChatSession InitCreate] /\
    step (mount slot) (Settle 0 (Ok (CreatedReply new_id))) = Some s /\
    storage (ui s) = Some new_id /\
    sessionId (ui s) = Some new_id /\
    messages (ui s) = [GREETING] /\
    sessionLoading (ui s) = false /\
    inflight s = [].
Proof.
  intros Hs. rewrite (mount_fresh slot Hs).
  eexists. split; [reflexivity|]. split; [reflexivity|]. cbn. repeat split.
Qed.

Lemma empty_slot_creates_session_witness :
  exists s,
    inflight (mount (Some "")) = [mkPending createChatSession InitCreate] /\
    step (mount (Some "")) (Settle 0 (Ok (CreatedReply "fresh"))) = Some s /\
    storage (ui s) = Some "fresh" /\
    sessionId (ui s) = Some "fresh" /\
    messages (ui s) = [GREETING] /\
    sessionLoading (ui s) = false /\
    inflight s = [].
Proof.
  exact (empty_slot_creates_session (Some "") "fresh" eq_refl).
Defined.

(** X9: when every startup call fails (the fetch of a stored session, if
    there is one, and the creation), the page ends without a session id,
    with the spinner off and nothing in flight, and the first send then
    goes through discoverChat with the greeting and the trimmed text as
    the whole transcript and no policy ids. *)
Theorem unreachable_backend_first_send (slot : option string) (e e' : Exn) (text : string) :
  trim text <> "" ->
  exists s s',
    run (mount slot)
      (if truthy_id slot then [Settle 0 (Throw e); Settle 0 (Throw e')]
       else [Settle 0 (Throw e')]) = Some s /\
    sessionId (ui s) = None /\
    sessionLoading (ui s) = false /\
    inflight s = [] /\
    step s (ClickSend (Some text)) = Some s' /\
    inflight s' =
      [mkPending (discoverChat [(JStr "assistant", content GREETING);
                                (JStr "user", JStr (trim text))] []) Send] /\
    messages (ui s') = [GREETING; userMsg (trim text)].
Proof.
  intros Ht.
  assert (G : forall st, sessionId st = None -> loading st = false ->
                messages st = [GREETING] -> sessionPolicyIds st = [] ->
                exists st',
                  sendMessage (Some text) st =
                    (st', Some (mkPending
                       (discoverChat [(JStr "assistant", content GREETING);
                                      (JStr "user", JStr (trim text))] []) Send)) /\
                  messages st' = [GREETING; userMsg (trim text)]).
  { intros st Hid Hl Hm Hp.
    destruct (sendMessage_cases (Some text) st) as [[[C|C] _] | (_ & _ & r & E & Hr)].
    - cbn in C. contradiction.
    - congruence.
    - cbn [text_or_input] in E, Hr. rewrite E.
      destruct Hr as [(sid & C & _) | (_ & ->)]; [congruence|].
      rewrite Hm, Hp. eexists. split; [reflexivity|]. reflexivity. }
  destruct (truthy_id slot) eqn:Hs.
  - destruct slot as [stored|]; [|discriminate Hs]. cbn in Hs.
    rewrite (mount_stored stored Hs).
    destruct (G (setSessionLoading false
                   (removeItem (setSessionLoading true (initial (Some stored)))))
                eq_refl eq_refl eq_refl eq_refl) as (st' & E & Hm).
    exists (mkSys (setSessionLoading false
                     (removeItem (setSessionLoading true (initial (Some stored))))) []).
    eexists. split; [reflexivity|]. cbn [ui inflight].
    split; [reflexivity|]. split; [reflexivity|]. split; [reflexivity|].
    unfold step. cbn [ui]. rewrite E. split; [reflexivity|]. split; [reflexivity|exact Hm].
  - rewrite (mount_fresh slot Hs).
    destruct (G (setSessionLoading false (setSessionLoading true (initial slot)))
                eq_refl eq_refl eq_refl eq_refl) as (st' & E & Hm).
    exists (mkSys (setSessionLoading false (setSessionLoading true (initial slot))) []).
    eexists. split; [reflexivity|]. cbn [ui inflight].
    split; [reflexivity|]. split; [reflexivity|]. split; [reflexivity|].
    unfold step. cbn [ui]. rewrite E. split; [reflexivity|]. split; [reflexivity|exact Hm].
Qed.

Lemma unreachable_backend_first_send_witness :
  exists s s',
    run (mount (Some "gone")) [Settle 0 (Throw RequestFailed); Settle 0 (Throw RequestFailed)]
      = Some s /\
    sessionId (ui s) = None /\
    sessionLoading (ui s) = false /\
    inflight s = [] /\
    step s (ClickSend (Some " cover for two ")) = Some s' /\
    inflight s' =
      [mkPending (discoverChat [(JStr "assistant", content GREETING);
                                (JStr "user", JStr "cover for two")] []) Send] /\
    messages (ui s') = [GREETING; userMsg "cover for two"].
Proof.
  exact (unreachable_backend_first_send (Some "gone") RequestFailed RequestFailed
           " cover for two " ltac:(vm_compute; discriminate)).
Defined.

End Startup.

(** ** A send from start to answer *)

Section Answered.

(** X10: with an active session id, a send that goes ahead calls
    sendChatMessage with that id and the trimmed text only (the transcript
    is not sent), empties the input box, appends the user message and
    sets the in-flight flag. *)
Theorem persistent_send_carries_only_the_text
    (text : option string) (st : State) (sid : string) :
  sessionId st = Some sid ->
  sid <> "" ->
  loading st = false ->
  trim (text_or_input text st) <> "" ->
  exists st',
    sendMessage text st =
      (st', Some (mkPending (sendChatMessage sid (trim (text_or_input text st))) Send)) /\
    messages st' = messages st ++ [userMsg (trim (text_or_input text st))] /\
    input st' = "" /\
    loading st' = true.
Proof.
  intros Hid Hs Hl Hu.
  destruct (sendMessage_cases text st) as [[[C|C] _] | (_ & _ & r & E & Hr)];
    [contradiction | congruence |].
  rewrite E. destruct Hr as [(sid' & Hid' & _ & ->) | (Hf & _)].
  - rewrite Hid in Hid'. injection Hid' as <-.
    eexists. split; [reflexivity|]. repeat split.
  - rewrite Hid in Hf. cbn in Hf. apply truthy_str_true in Hs. congruence.
Qed.

Lemma persistent_send_carries_only_the_text_witness :
  exists st',
    sendMessage None (setInput " any OPD cover? " (setSessionId (Some "s1") (initial (Some "s1"))))
      = (st', Some (mkPending (sendChatMessage "s1" "any OPD cover?") Send)) /\
    messages st' = [GREETING; userMsg "any OPD cover?"] /\
    input st' = "" /\
    loading st' = true.
Proof.
  exact (persistent_send_carries_only_the_text None
           (setInput " any OPD cover? " (setSessionId (Some "s1") (initial (Some "s1"))))
           "s1" eq_refl ltac:(discriminate) eq_refl ltac:(vm_compute; discriminate)).
Defined.

(** X11: a send that goes ahead and is answered adds exactly two messages
    to the transcript it started from: the user message, whose text is
    not empty and has no white space at either end, and one assistant
    message whose content is the response's message, or the empty string
    when that is null or undefined; the in-flight flag is cleared and no
    further call is started. *)
Theorem answered_send_appends_two_messages
    (text : option string) (st st1 : State) (p : Pending) (data : ChatData) :
  sendMessage text st = (st1, Some p) ->
  exists st2 u,
    resume (cont p) (Ok (ChatReply data)) st1 = Some (st2, None) /\
    messages st2 = messages st ++ [userMsg u; assistantMsg data] /\
    u <> "" /\ trim u = u /\
    loading st2 = false /\
    role (assistantMsg data) = JStr "assistant" /\
    nullish (content (assistantMsg data)) = false /\
    (nullish (data_message data) = false ->
     content (assistantMsg data) = data_message data) /\
    (nullish (data_message data) = true ->
     content (assistantMsg data) = JStr "").
Proof.
  intros H.
  destruct (sendMessage_cases text st) as [[_ E] | (Hu & _ & r & E & _)];
    rewrite E in H; [discriminate H|].
  injection H as <- <-.
  eexists. exists (trim (text_or_input text st)).
  split; [reflexivity|].
  split.
  { unfold sendMessage_settled, track_uploaded.
    destruct (data_uploaded_policy_ids data) as [[|x xs]|]; cbn;
      rewrite <- app_assoc; reflexivity. }
  split; [exact Hu|]. split; [apply trim_idem|].
  split.
  { unfold sendMessage_settled, track_uploaded.
    destruct (data_uploaded_policy_ids data) as [[|x xs]|]; reflexivity. }
  split; [reflexivity|].
  unfold assistantMsg, coalesce. cbn [content].
  destruct (nullish (data_message data)) eqn:En;
    (split; [first [reflexivity | exact En]|]);
    split; intros C; first [reflexivity | discriminate C].
Qed.

Lemma answered_send_appends_two_messages_witness :
  exists st2 u,
    resume Send (Ok (ChatReply (plain_reply "results" "Found 2" None)))
      (fst (sendMessage (Some " hi ") (initial None))) = Some (st2, None) /\
    messages st2 = [GREETING] ++ [userMsg u; assistantMsg (plain_reply "results" "Found 2" None)] /\
    u <> "" /\ trim u = u /\
    loading st2 = false /\
    role (assistantMsg (plain_reply "results" "Found 2" None)) = JStr "assistant" /\
    nullish (content (assistantMsg (plain_reply "results" "Found 2" None))) = false /\
    (nullish (data_message (plain_reply "results" "Found 2" None)) = false ->
     content (assistantMsg (plain_reply "results" "Found 2" None))
       = data_message (plain_reply "results" "Found 2" None)) /\
    (nullish (data_message (plain_reply "results" "Found 2" None)) = true ->
     content (assistantMsg (plain_reply "results" "Found 2" None)) = JStr "").
Proof.
  exact (answered_send_appends_two_messages (Some " hi ") (initial None)
           (fst (sendMessage (Some " hi ") (initial None)))
           (mkPending (discoverChat (apiMessages_of [GREETING; userMsg "hi"]) []) Send)
           (plain_reply "results" "Found 2" None) eq_refl).
Defined.

(** X12: the send button is disabled exactly when sendMessage() called
    without a text does nothing: the condition on the button
    ([loading || !input.trim()]) and the guard inside the handler agree,
    so a click on an enabled button always starts a send. *)
Theorem send_button_matches_guard (st : State) :
  (send_disabled st = true <-> sendMessage None st = (st, None)) /\
  (send_disabled st = false <-> exists st' p, sendMessage None st = (st', Some p)).
Proof.
  unfold send_disabled.
  destruct (sendMessage_cases None st) as [[C E] | (Hu & Hl & r & E & _)];
    cbn [text_or_input] in *.
  - assert (D : loading st || negb (truthy_str (trim (input st))) = true).
    { destruct C as [C|C]; [rewrite C; cbn; apply orb_true_r | rewrite C; reflexivity]. }
    rewrite D, E. split; split; intros H; try reflexivity; try discriminate H.
    destruct H as (st' & p & H). discriminate H.
  - apply truthy_str_true in Hu. rewrite Hl, Hu, E. cbn.
    split; split; intros H; try reflexivity; try discriminate H.
    eexists. eexists. reflexivity.
Qed.

Lemma send_button_matches_guard_witness :
  send_disabled (setInput "   " (initial None)) = true /\
  sendMessage None (setInput "   " (initial None)) = (setInput "   " (initial None), None).
Proof.
  split; [reflexivity|].
  exact (proj1 (proj1 (send_button_matches_guard (setInput "   " (initial None)))) eq_refl).
Defined.

(** X13: each starter prompt, clicked while the prompts are on show, goes
    out unchanged: sendMessage appends a user message with exactly that
    text and starts a call, and the prompts are no longer on show
    afterwards. *)
Theorem starter_prompt_is_sent (prompt : string) (st : State) :
  In prompt STARTER_PROMPTS ->
  starters_shown st = true ->
  exists st' p,
    sendMessage (Some prompt) st = (st', Some p) /\
    messages st' = messages st ++ [userMsg prompt] /\
    starters_shown st' = false.
Proof.
  intros Hin Hs. unfold starters_shown in Hs.
  apply andb_prop in Hs. destruct Hs as [_ Hl].
  apply negb_true_iff in Hl.
  assert (Ht : trim prompt = prompt /\ prompt <> "").
  { cbn in Hin. destruct Hin as [<-|[<-|[<-|[<-|[]]]]];
      (split; [vm_compute; reflexivity | discriminate]). }
  destruct Ht as [Ht Hne].
  destruct (sendMessage_cases (Some prompt) st) as [[[C|C] _] | (_ & _ & r & E & _)];
    cbn [text_or_input] in *.
  - rewrite Ht in C. contradiction.
  - congruence.
  - rewrite Ht in E. rewrite E. eexists. eexists.
    split; [reflexivity|]. split; [reflexivity|].
    unfold starters_shown. cbn. apply andb_false_r.
Qed.

Lemma starter_prompt_is_sent_witness :
  exists st' p,
    sendMessage (Some "Best family floater plan under ₹12,000/year with OPD coverage")
      (setSessionLoading false (initial None)) = (st', Some p) /\
    messages st' =
      [GREETING; userMsg "Best family floater plan under ₹12,000/year with OPD coverage"] /\
    starters_shown st' = false.
Proof.
  exact (starter_prompt_is_sent
           "Best family floater plan under ₹12,000/year with OPD coverage"
           (setSessionLoading false (initial None))
           (or_intror (or_introl eq_refl)) eq_refl).
Defined.

End Answered.

(** ** Selection and comparison on the page *)

Section Comparing.

Lemma isSelected_In (i : string) (sel : list SelectionEntry) :
  isSelected i sel = true <-> In i (ids sel).
Proof.
  unfold isSelected. split.
  - destruct (find (has_id i) sel) as [p|] eqn:E; [|discriminate].
    intros _. apply find_some in E. destruct E as [Hin Hp].
    unfold has_id in Hp. apply String.eqb_eq in Hp. subst i.
    unfold ids. apply in_map. exact Hin.
  - intros H. destruct (find_has_id_some i sel H) as (p & ->). reflexivity.
Qed.

Lemma filter_absent (i : string) (sel : list SelectionEntry) :
  ~ In i (ids sel) -> filter (fun p => negb (has_id i p)) sel = sel.
Proof.
  induction sel as [|q sel IH]; cbn; [reflexivity|].
  intros H. unfold has_id at 1.
  destruct (String.eqb_spec (entry_id q) i) as [E|E]; cbn.
  - exfalso. apply H. left. exact E.
  - f_equal. apply IH. intros C. apply H. right. exact C.
Qed.

(** X14: selecting a policy that is not selected, while fewer than 3 are,
    and toggling it again gives back exactly the selection there was, in
    the same order; in between the policy shows as selected. *)
Theorem select_then_deselect (i name name' : string) (prev : list SelectionEntry) :
  isSelected i prev = false ->
  List.length prev < 3 ->
  isSelected i (toggle i name prev) = true /\
  toggle i name' (toggle i name prev) = prev.
Proof.
  intros Hs Hl.
  assert (Hn : ~ In i (ids prev)).
  { intros C. apply isSelected_In in C. congruence. }
  destruct (toggle_cases i name prev) as (_ & Ha & _).
  rewrite (Ha Hn Hl).
  assert (Hin : In i (ids (prev ++ [mkEntry i name]))).
  { unfold ids. rewrite map_app. apply in_or_app. right. left. reflexivity. }
  split; [apply isSelected_In; exact Hin|].
  destruct (toggle_cases i name' (prev ++ [mkEntry i name])) as (Hp & _ & _).
  destruct (Hp Hin) as [-> _].
  rewrite filter_app. rewrite (filter_absent i prev Hn).
  cbn [filter]. unfold has_id. cbn [entry_id]. rewrite String.eqb_refl.
  cbn [negb]. apply app_nil_r.
Qed.

Lemma select_then_deselect_witness :
  isSelected "p2" (toggle "p2" "Plan B" [mkEntry "p1" "Plan A"]) = true /\
  toggle "p2" "Plan B" (toggle "p2" "Plan B" [mkEntry "p1" "Plan A"]) = [mkEntry "p1" "Plan A"].
Proof.
  exact (select_then_deselect "p2" "Plan B" "Plan B" [mkEntry "p1" "Plan A"] eq_refl
           ltac:(cbn; lia)).
Defined.

Lemma isSelected_filter_other (i j : string) (sel : list SelectionEntry) :
  i <> j -> isSelected j (filter (fun p => negb (has_id i p)) sel) = isSelected j sel.
Proof.
  intros Hij. unfold isSelected.
  induction sel as [|q sel IH]; [reflexivity|].
  cbn [filter find].
  destruct (has_id i q) eqn:Hi; destruct (has_id j q) eqn:Hj; cbn [negb find];
    try rewrite Hj; try exact IH; try reflexivity.
  unfold has_id in Hi, Hj. apply String.eqb_eq in Hi, Hj. congruence.
Qed.

Lemma isSelected_snoc (j : string) (sel : list SelectionEntry) (e : SelectionEntry) :
  isSelected j (sel ++ [e]) = isSelected j sel || has_id j e.
Proof.
  unfold isSelected. induction sel as [|q sel IH]; cbn [app find].
  - destruct (has_id j e); reflexivity.
  - destruct (has_id j q); [reflexivity | exact IH].
Qed.

(** X15: what a policy card shows after a call of toggleCompare.  The card
    of the toggled id shows unselected if it was selected, selected if it
    was not and fewer than 3 were, and stays unselected at 3; the card of
    every other id shows what it showed before. *)
Theorem isSelected_after_toggle (i name j : string) (prev : list SelectionEntry) :
  isSelected j (toggle i name prev) =
    if String.eqb i j
    then (if isSelected i prev then false else (List.length prev <? 3)%nat)
    else isSelected j prev.
Proof.
  destruct (String.eqb_spec i j) as [<-|Hij].
  - destruct (isSelected i prev) eqn:Hs.
    + apply isSelected_In in Hs.
      destruct (toggle_cases i name prev) as (Hp & _ & _).
      destruct (Hp Hs) as [_ Hn].
      destruct (isSelected i (toggle i name prev)) eqn:C; [|reflexivity].
      apply isSelected_In in C. contradiction.
    + assert (Hn : ~ In i (ids prev)).
      { intros C. apply isSelected_In in C. congruence. }
      destruct (toggle_cases i name prev) as (_ & Ha & Hf).
      destruct (Nat.ltb_spec (List.length prev) 3) as [Hl|Hl].
      * rewrite (Ha Hn Hl). apply isSelected_In.
        unfold ids. rewrite map_app. apply in_or_app. right. left. reflexivity.
      * rewrite (Hf Hn Hl). exact Hs.
  - unfold toggle.
    destruct (find (has_id i) prev) as [p|].
    + apply isSelected_filter_other. exact Hij.
    + destruct (3 <=? List.length prev)%nat; [reflexivity|].
      rewrite isSelected_snoc. unfold has_id. cbn [entry_id].
      destruct (String.eqb_spec i j); [contradiction | apply orb_false_r].
Qed.

(** X16: the compare bar is on show exactly when handleCompare starts a
    call: with 2 or more selected it sets the comparing flag and calls
    comparePolicies with the selected ids in selection order; with fewer
    it does nothing. *)
Theorem compare_bar_matches_guard (st : State) :
  (compare_bar_shown st = true ->
     handleCompare st =
       (setComparing true st,
        Some (mkPending (comparePolicies (ids (selected st))) Compare))) /\
  (compare_bar_shown st = false -> handleCompare st = (st, None)).
Proof.
  unfold compare_bar_shown, handleCompare.
  destruct (Nat.leb_spec 2 (List.length (selected st))) as [H|H];
    destruct (Nat.ltb_spec (List.length (selected st)) 2) as [H'|H'];
    try lia; split; intros C; try discriminate C; reflexivity.
Qed.

Lemma compare_bar_matches_guard_witness :
  handleCompare (setSelected [mkEntry "p1" "A"; mkEntry "p2" "B"] (initial None)) =
    (setComparing true (setSelected [mkEntry "p1" "A"; mkEntry "p2" "B"] (initial None)),
     Some (mkPending (comparePolicies ["p1"; "p2"]) Compare)) /\
  handleCompare (setSelected [mkEntry "p1" "A"] (initial None)) =
    (setSelected [mkEntry "p1" "A"] (initial None), None).
Proof.
  split.
  - exact (proj1 (compare_bar_matches_guard
                    (setSelected [mkEntry "p1" "A"; mkEntry "p2" "B"] (initial None))) eq_refl).
  - exact (proj2 (compare_bar_matches_guard
                    (setSelected [mkEntry "p1" "A"] (initial None))) eq_refl).
Defined.

End Comparing.

(** ** Handlers run to completion *)

Section Completion.

Lemma nth_error_at {A} (l : list A) (p : A) (rest : list A) :
  nth_error (l ++ p :: rest) (List.length l) = Some p.
Proof. induction l as [|a l IH]; cbn; [reflexivity | exact IH]. Qed.

Lemma remove_nth_at {A} (l : list A) (p : A) (rest : list A) :
  remove_nth (List.length l) (l ++ p :: rest) = l ++ rest.
Proof. induction l as [|a l IH]; cbn; [reflexivity | rewrite IH; reflexivity]. Qed.

(** Settling the call that sits right after the prefix [l]. *)
Lemma settle_at (st : State) (l : list Pending) (p : Pending) (rest : list Pending)
    (o : Result Reply) (st' : State) (q : option Pending) :
  settles (request p) o = true ->
  resume (cont p) o st = Some (st', q) ->
  step (mkSys st (l ++ p :: rest)) (Settle (List.length l) o)
    = Some (mkSys st' ((l ++ rest) ++ opt_list q)).
Proof.
  intros Hs Hr. unfold step. cbn [inflight ui].
  rewrite nth_error_at, Hs, Hr, remove_nth_at. reflexivity.
Qed.

Lemma sessions_without (sid : string) (l : list Session) :
  ~ In sid (map id (filter (fun x => negb (String.eqb (id x) sid)) l)).
Proof.
  rewrite in_map_iff. intros (x & E & Hin).
  apply filter_In in Hin. destruct Hin as [_ Hn].
  rewrite E, String.eqb_refl in Hn. discriminate Hn.
Qed.

(** X17: deleting a session that is not the active one.  When the delete
    call succeeds, the session list loses every entry with that id and
    keeps the others in order, and nothing else changes: transcript,
    active session id, slot and selection stay as they were and no
    further call is started.  When the delete call fails, nothing changes
    at all: the session stays in the list. *)
Theorem deleting_another_session (s : Sys) (sid : string) (e : Exn) :
  same_id sid (sessionId (ui s)) = false ->
  (exists s',
     run s [ClickDelete sid; Settle (List.length (inflight s)) (Ok DeletedReply)] = Some s' /\
     ui s' = setSessions (filter (fun x => negb (String.eqb (id x) sid)) (sessions (ui s)))
               (ui s) /\
     ~ In sid (map id (sessions (ui s'))) /\
     inflight s' = inflight s) /\
  run s [ClickDelete sid; Settle (List.length (inflight s)) (Throw e)] = Some s.
Proof.
  intros Hid. destruct s as [st l]. cbn [ui inflight] in *.
  split.
  - eexists. split.
    + cbn [run]. unfold step at 1. cbn [ui inflight]. unfold handleDeleteSession, suspend.
      cbn [fst snd inflight opt_list].
      erewrite settle_at; [reflexivity | reflexivity |].
      cbn [cont resume]. unfold handleDeleteSession_deleted. rewrite Hid. reflexivity.
    + cbn [ui inflight]. split; [reflexivity|]. split.
      * cbn. apply sessions_without.
      * cbn [opt_list]. rewrite !app_nil_r. reflexivity.
  - cbn [run]. unfold step at 1. cbn [ui inflight]. unfold handleDeleteSession, suspend.
    cbn [fst snd inflight opt_list].
    erewrite settle_at; [| reflexivity | reflexivity].
    cbn [opt_list]. rewrite !app_nil_r. reflexivity.
Qed.

Lemma deleting_another_session_witness :
  let s := mkSys (setSessions [mkSession "a" None "t0" "t1"; mkSession "b" None "t0" "t2"]
                    (setSessionId (Some "a") (initial (Some "a")))) [] in
  exists s',
    run s [ClickDelete "b"; Settle 0 (Ok DeletedReply)] = Some s' /\
    map id (sessions (ui s')) = ["a"] /\
    sessionId (ui s') = Some "a".
Proof.
  intros s.
  destruct (proj1 (deleting_another_session s "b" RequestFailed eq_refl))
    as (s' & Hrun & Hui & _ & _).
  exists s'. split; [exact Hrun|]. rewrite Hui. split; reflexivity.
Defined.

(** X18: deleting the active session.  After the delete call and the
    creation it triggers have both succeeded, the new id is the active
    session and is in the slot, the transcript is the greeting, the
    selection and the comparison are cleared, the history panel is closed
    and the deleted id is gone from the session list. *)
Theorem deleting_the_active_session (s : Sys) (sid new_id : string) :
  sessionId (ui s) = Some sid ->
  exists s',
    run s [ClickDelete sid;
           Settle (List.length (inflight s)) (Ok DeletedReply);
           Settle (List.length (inflight s)) (Ok (CreatedReply new_id))] = Some s' /\
    sessionId (ui s') = Some new_id /\
    storage (ui s') = Some new_id /\
    messages (ui s') = [GREETING] /\
    selected (ui s') = [] /\
    compareResult (ui s') = JNull /\
    showHistory (ui s') = false /\
    ~ In sid (map id (sessions (ui s'))) /\
    inflight s' = inflight s.
Proof.
  intros Hid. destruct s as [st l]. cbn [ui inflight] in *.
  eexists. split.
  - cbn [run]. unfold step at 1. cbn [ui inflight]. unfold handleDeleteSession, suspend.
    cbn [fst snd inflight opt_list].
    erewrite settle_at; [| reflexivity |].
    2:{ cbn [cont resume]. unfold handleDeleteSession_deleted.
        rewrite Hid. cbn [same_id]. rewrite String.eqb_refl. reflexivity. }
    cbn [opt_list]. rewrite app_nil_r.
    erewrite settle_at; [reflexivity | reflexivity | reflexivity].
  - cbn. repeat split.
    + apply sessions_without.
    + rewrite !app_nil_r. reflexivity.
Qed.

Lemma deleting_the_active_session_witness :
  let s := mkSys (setSessions [mkSession "a" None "t0" "t1"; mkSession "b" None "t0" "t2"]
                    (setSessionId (Some "a") (initial (Some "a")))) [] in
  exists s',
    run s [ClickDelete "a"; Settle 0 (Ok DeletedReply); Settle 0 (Ok (CreatedReply "c"))]
      = Some s' /\
    sessionId (ui s') = Some "c" /\
    storage (ui s') = Some "c" /\
    messages (ui s') = [GREETING].
Proof.
  intros s.
  destruct (deleting_the_active_session s "a" "c" eq_refl)
    as (s' & Hrun & Hid & Hst & Hm & _).
  exists s'. repeat split; assumption.
Defined.

(** X19: deleting the active session when the creation that follows
    fails.  The transcript is reset to the greeting and the session is
    gone from the list, but the deleted id is still the active session id
    and the slot is not touched, so the page goes on addressing the
    deleted session. *)
Theorem deleted_session_stays_active (s : Sys) (sid : string) (e : Exn) :
  sessionId (ui s) = Some sid ->
  exists s',
    run s [ClickDelete sid;
           Settle (List.length (inflight s)) (Ok DeletedReply);
           Settle (List.length (inflight s)) (Throw e)] = Some s' /\
    sessionId (ui s') = Some sid /\
    storage (ui s') = storage (ui s) /\
    messages (ui s') = [GREETING] /\
    selected (ui s') = selected (ui s) /\
    ~ In sid (map id (sessions (ui s'))) /\
    inflight s' = inflight s.
Proof.
  intros Hid. destruct s as [st l]. cbn [ui inflight] in *.
  eexists. split.
  - cbn [run]. unfold step at 1. cbn [ui inflight]. unfold handleDeleteSession, suspend.
    cbn [fst snd inflight opt_list].
    erewrite settle_at; [| reflexivity |].
    2:{ cbn [cont resume]. unfold handleDeleteSession_deleted.
        rewrite Hid. cbn [same_id]. rewrite String.eqb_refl. reflexivity. }
    cbn [opt_list]. rewrite app_nil_r.
    erewrite settle_at; [reflexivity | reflexivity | reflexivity].
  - cbn. repeat split.
    + exact Hid.
    + apply sessions_without.
    + rewrite !app_nil_r. reflexivity.
Qed.

Lemma deleted_session_stays_active_witness :
  let s := mkSys (setSessions [mkSession "a" None "t0" "t1"]
                    (setSessionId (Some "a") (initial (Some "a")))) [] in
  exists s',
    run s [ClickDelete "a"; Settle 0 (Ok DeletedReply); Settle 0 (Throw RequestFailed)]
      = Some s' /\
    sessionId (ui s') = Some "a" /\
    storage (ui s') = Some "a" /\
    messages (ui s') = [GREETING].
Proof.
  intros s.
  destruct (deleted_session_stays_active s "a" RequestFailed eq_refl)
    as (s' & Hrun & Hid & Hst & Hm & _).
  exists s'. repeat split; assumption.
Defined.

End Completion.

(** ** Switching and late answers *)

Section Switching.

Lemma session_outcome_settles (sid : string) (o : Result (option (list JsVal))) :
  settles (getChatSession sid) (session_outcome o) = true.
Proof. destruct o; reflexivity. Qed.

Lemma resume_switch (sid : string) (o : Result (option (list JsVal))) (st : State) :
  resume (Switch sid) (session_outcome o) st = Some (switchSession_loaded sid o st, None).
Proof. destruct o; reflexivity. Qed.

Lemma switch_run (st : State) (l : list Pending) (sid : string)
    (o : Result (option (list JsVal))) :
  run (mkSys st l) [ClickSession sid; Settle (List.length l) (session_outcome o)] =
    Some (mkSys (switchSession_loaded sid o (setLoading false (setShowHistory false st))) l).
Proof.
  cbn [run]. unfold step at 1. cbn [ui inflight]. unfold switchSession, suspend.
  cbn [fst snd inflight opt_list].
  erewrite settle_at; [| apply session_outcome_settles | apply resume_switch].
  cbn [opt_list]. rewrite !app_nil_r. reflexivity.
Qed.

(** X20: a switch whose fetch succeeds with records none of which is null
    makes the picked id the active session id and the content of the
    slot, clears the selection and the comparison, and replaces the
    transcript by the reconstruction of the records, or by the greeting
    when there are none; the typing indicator and the history panel are
    off and no call is left from the switch. *)
Theorem switch_replaces_session (s : Sys) (sid : string) (d : option (list JsVal)) :
  (forall l, d = Some l -> Forall (fun r => nullish r = false) l) ->
  exists s',
    run s [ClickSession sid; Settle (List.length (inflight s)) (Ok (SessionReply d))] = Some s' /\
    sessionId (ui s') = Some sid /\
    storage (ui s') = Some sid /\
    selected (ui s') = [] /\
    compareResult (ui s') = JNull /\
    loading (ui s') = false /\
    showHistory (ui s') = false /\
    inflight s' = inflight s /\
    (forall m ms, d = Some (m :: ms) -> reconstruct (m :: ms) = Ok (messages (ui s'))) /\
    (d = None \/ d = Some [] -> messages (ui s') = [GREETING]).
Proof.
  intros Hd. destruct s as [st l]. cbn [ui inflight].
  eexists. split; [exact (switch_run st l sid (Ok d))|].
  cbn [ui inflight]. unfold switchSession_loaded.
  destruct d as [[|m ms]|].
  - cbn. repeat split; try discriminate.
  - destruct (reconstruct_objects (m :: ms) (Hd _ eq_refl)) as (restored & E & _).
    rewrite E. cbn. repeat split.
    + intros m' ms' H. injection H as <- <-. exact E.
    + intros [H|H]; discriminate H.
  - cbn. repeat split; try discriminate.
Qed.

Lemma switch_replaces_session_witness :
  exists s',
    run (mount None) [ClickSession "s2";
                      Settle 1 (Ok (SessionReply (Some [user_record; results_record])))]
      = Some s' /\
    sessionId (ui s') = Some "s2" /\
    storage (ui s') = Some "s2" /\
    selected (ui s') = [].
Proof.
  destruct (switch_replaces_session (mount None) "s2" (Some [user_record; results_record]))
    as (s' & Hrun & Hid & Hst & Hsel & _).
  - intros l H. injection H as <-. repeat constructor.
  - exists s'. repeat split; assumption.
Defined.

(** X21: a switch that cannot be completed, because the fetch fails or
    because a record is null, only closes the history panel and turns the
    typing indicator off: transcript, active session id, slot, selection
    and comparison are those of before the click. *)
Theorem failed_switch_keeps_session (s : Sys) (sid : string)
    (o : Result (option (list JsVal))) :
  unreadable o ->
  run s [ClickSession sid; Settle (List.length (inflight s)) (session_outcome o)] =
    Some (mkSys (setLoading false (setShowHistory false (ui s))) (inflight s)).
Proof.
  intros Hu. destruct s as [st l]. cbn [ui inflight].
  rewrite switch_run. unfold switchSession_loaded.
  destruct o as [[[|m ms]|]|e]; cbn in Hu; try contradiction; try reflexivity.
  - inversion Hu.
  - rewrite (reconstruct_null_record _ Hu). reflexivity.
Qed.

Lemma failed_switch_keeps_session_witness :
  run (mkSys (setSessionId (Some "s1") (initial (Some "s1"))) [])
      [ClickSession "s2"; Settle 0 (Ok (SessionReply (Some [JNull])))] =
    Some (mkSys (setLoading false (setShowHistory false
                   (setSessionId (Some "s1") (initial (Some "s1"))))) []).
Proof.
  exact (failed_switch_keeps_session
           (mkSys (setSessionId (Some "s1") (initial (Some "s1"))) [])
           "s2" (Ok (Some [JNull]))
           (Exists_cons_hd (fun r => nullish r = true) JNull [] eq_refl)).
Defined.

(** X22: the answer to a send started before a session switch lands in
    the session switched to.  From a page with nothing in flight: a send,
    a switch to a session without records that completes first, then the
    answer of the send: the transcript of the new session is the greeting
    followed by the assistant message, without the question. *)
Theorem late_answer_lands_in_new_session
    (st : State) (text : option string) (sid : string) (data : ChatData) :
  loading st = false ->
  trim (text_or_input text st) <> "" ->
  exists s',
    run (mkSys st [])
      [ClickSend text; ClickSession sid;
       Settle 1 (Ok (SessionReply None));
       Settle 0 (Ok (ChatReply data))] = Some s' /\
    sessionId (ui s') = Some sid /\
    messages (ui s') = [GREETING; assistantMsg data] /\
    inflight s' = [].
Proof.
  intros Hl Hu.
  destruct (sendMessage_cases text st) as [[[C|C] _] | (_ & _ & r & E & Hr)];
    [contradiction | congruence |].
  assert (Hs : settles r (Ok (ChatReply data)) = true).
  { destruct Hr as [(x & _ & _ & ->) | (_ & ->)]; reflexivity. }
  set (st1 := setLoading true
                (setMessages (messages st ++ [userMsg (trim (text_or_input text st))])
                   (setInput "" st))) in *.
  set (ps := mkPending r Send).
  set (pq := mkPending (getChatSession sid) (Switch sid)).
  set (st2 := setLoading false (setShowHistory false st1)).
  set (st3 := switchSession_loaded sid (Ok None) st2).
  assert (S1 : step (mkSys st []) (ClickSend text) = Some (mkSys st1 [ps])).
  { unfold step. cbn [ui inflight]. rewrite E. reflexivity. }
  assert (S2 : step (mkSys st1 [ps]) (ClickSession sid) = Some (mkSys st2 [ps; pq])).
  { reflexivity. }
  assert (S3 : step (mkSys st2 [ps; pq]) (Settle 1 (Ok (SessionReply None)))
               = Some (mkSys st3 [ps])).
  { exact (settle_at st2 [ps] pq [] (Ok (SessionReply None)) st3 None eq_refl eq_refl). }
  assert (S4 : step (mkSys st3 [ps]) (Settle 0 (Ok (ChatReply data)))
               = Some (mkSys (sendMessage_settled (Ok data) st3) [])).
  { exact (settle_at st3 [] ps [] (Ok (ChatReply data)) _ None Hs eq_refl). }
  eexists. split.
  - cbn [run]. rewrite S1, S2, S3, S4. reflexivity.
  - cbn [ui inflight]. unfold sendMessage_settled, track_uploaded.
    destruct (data_uploaded_policy_ids data) as [[|x xs]|]; cbn; repeat split.
Qed.

Lemma late_answer_lands_in_new_session_witness :
  exists s',
    run (mkSys (initial None) [])
      [ClickSend (Some "plans?"); ClickSession "s2";
       Settle 1 (Ok (SessionReply None));
       Settle 0 (Ok (ChatReply (plain_reply "results" "Found 2" None)))] = Some s' /\
    sessionId (ui s') = Some "s2" /\
    messages (ui s') = [GREETING; assistantMsg (plain_reply "results" "Found 2" None)] /\
    inflight s' = [].
Proof.
  exact (late_answer_lands_in_new_session (initial None) (Some "plans?") "s2"
           (plain_reply "results" "Found 2" None) eq_refl ltac:(discriminate)).
Defined.

(** X23: a comparison that is answered after the selection was changed is
    shown all the same.  From a page with 2 or more selected and nothing
    in flight: Compare, a toggle before the answer, then the answer: the
    comparison result is the answer computed for the old selection, while
    the selection is the toggled one. *)
Theorem late_comparison_is_shown (st : State) (i name : string) (data : JsVal) :
  2 <= List.length (selected st) ->
  exists s',
    run (mkSys st []) [ClickCompare; ClickCompareToggle i name;
                       Settle 0 (Ok (CompareReply data))] = Some s' /\
    step (mkSys st []) ClickCompare =
      Some (mkSys (setComparing true st)
              [mkPending (comparePolicies (ids (selected st))) Compare]) /\
    selected (ui s') = toggle i name (selected st) /\
    compareResult (ui s') = data /\
    comparing (ui s') = false.
Proof.
  intros H2.
  assert (E : handleCompare st =
              (setComparing true st,
               Some (mkPending (comparePolicies (ids (selected st))) Compare))).
  { unfold handleCompare.
    destruct (Nat.ltb_spec (List.length (selected st)) 2); [lia | reflexivity]. }
  eexists. split.
  - cbn [run]. unfold step at 1. cbn [ui inflight]. rewrite E.
    unfold suspend. cbn [fst snd inflight opt_list app]. reflexivity.
  - split; [unfold step; cbn [ui inflight]; rewrite E; reflexivity|].
    cbn. repeat split.
Qed.

Lemma late_comparison_is_shown_witness :
  exists s',
    run (mkSys (setSelected [mkEntry "p1" "A"; mkEntry "p2" "B"] (initial None)) [])
      [ClickCompare; ClickCompareToggle "p3" "C";
       Settle 0 (Ok (CompareReply (JObj [("rows", JArr [])])))] = Some s' /\
    ids (selected (ui s')) = ["p1"; "p2"; "p3"] /\
    compareResult (ui s') = JObj [("rows", JArr [])].
Proof.
  destruct (late_comparison_is_shown
              (setSelected [mkEntry "p1" "A"; mkEntry "p2" "B"] (initial None))
              "p3" "C" (JObj [("rows", JArr [])]) ltac:(cbn; lia))
    as (s' & Hrun & _ & Hsel & Hres & _).
  exists s'. split; [exact Hrun|]. split; [rewrite Hsel; reflexivity | exact Hres].
Defined.

Lemma resume_policy_ids (k : Cont) (o : Result Reply) (st st' : State) (q : option Pending) :
  resume k o st = Some (st', q) ->
  sessionPolicyIds st' = sessionPolicyIds st \/
  exists d x xs,
    k = Send /\ o = Ok (ChatReply d) /\
    data_uploaded_policy_ids d = Some (x :: xs) /\
    sessionPolicyIds st' = x :: xs.
Proof.
  destruct k; destruct o as [[d|sid'|d|d|d|]|e]; unfold resume; try discriminate;
    intros H; apply some_inj in H; revert H;
    try (unfold sendMessage_settled, track_uploaded;
         destruct (data_uploaded_policy_ids d) as [[|x xs]|] eqn:Eu;
         intros H; injection H as <- <-;
         first [ left; reflexivity
               | right; exists d, x, xs; repeat split; assumption ]);
    unfold initSession_restored, initSession_expired, initSession_created,
      loadSessionHistory_settled, switchSession_loaded, startNewSession_created,
      handleDeleteSession_deleted, startNewSession, sendMessage_settled,
      handleCompare_settled;
    repeat match goal with
           | |- context [match ?x with _ => _ end] => destruct x
           end;
    intros H; injection H as <- <-; left; reflexivity.
Qed.

(** X24: the accumulated policy ids change at one place only.  An event
    leaves them as they are unless it is the answer to a send that carries
    a non-empty uploaded_policy_ids; in particular switching to another
    session, starting a new one or deleting one never resets them. *)
Theorem policy_ids_change_only_on_answer (s s' : Sys) (e : Event) :
  step s e = Some s' ->
  sessionPolicyIds (ui s') = sessionPolicyIds (ui s) \/
  exists n d x xs,
    e = Settle n (Ok (ChatReply d)) /\
    data_uploaded_policy_ids d = Some (x :: xs) /\
    sessionPolicyIds (ui s') = x :: xs.
Proof.
  intros Hstep. destruct e; unfold step in Hstep;
    try (injection Hstep as <-; left; reflexivity).
  - injection Hstep as <-. left.
    destruct (sendMessage_cases text (ui s)) as [[_ E] | (_ & _ & r & E & _)];
      rewrite E; reflexivity.
  - injection Hstep as <-. left. unfold handleCompare.
    destruct (List.length (selected (ui s)) <? 2)%nat; reflexivity.
  - destruct (nth_error (inflight s) n) as [p|]; [|discriminate].
    destruct (settles (request p) o); [|discriminate].
    destruct (resume (cont p) o (ui s)) as [[st' q]|] eqn:Er; [|discriminate].
    injection Hstep as <-. cbn [ui suspend fst].
    destruct (resume_policy_ids _ _ _ _ _ Er) as [H | (d & x & xs & _ & -> & Hu & H)].
    + left. exact H.
    + right. exists n, d, x, xs. repeat split; assumption.
Qed.

Lemma policy_ids_change_only_on_answer_witness :
  let s := mkSys (setSessionPolicyIds ["p1"] (setSessionId (Some "s1") (initial (Some "s1")))) [] in
  exists s',
    step s ClickNew = Some s' /\
    sessionPolicyIds (ui s') = ["p1"].
Proof.
  intros s. exists (suspend s (startNewSession (ui s))).
  split; [reflexivity|].
  destruct (policy_ids_change_only_on_answer s (suspend s (startNewSession (ui s)))
              ClickNew eq_refl)
    as [H | (n & d & x & xs & C & _)]; [exact H | discriminate C].
Defined.

End Switching.

(** ** The HTTP calls *)

Section Http.

Lemma string_length_append (a b : string) :
  String.length (a ++ b)%string = String.length a + String.length b.
Proof. induction a as [|c a IH]; cbn; [reflexivity | rewrite IH; reflexivity]. Qed.

Lemma append_inv_tail (a b t : string) : (a ++ t = b ++ t)%string -> a = b.
Proof.
  revert b. induction a as [|c a IH]; intros [|d b] H; cbn in H.
  - reflexivity.
  - exfalso. apply (f_equal String.length) in H. cbn in H.
    rewrite string_length_append in H. lia.
  - exfalso. apply (f_equal String.length) in H. cbn in H.
    rewrite string_length_append in H. lia.
  - injection H as -> H. f_equal. apply IH. exact H.
Qed.

Lemma map_injective {A B} (f : A -> B) (l l' : list A) :
  (forall a b, f a = f b -> a = b) -> map f l = map f l' -> l = l'.
Proof.
  intros Hf. revert l'. induction l as [|a l IH]; intros [|b l'] H; cbn in H;
    try discriminate H; [reflexivity|].
  injection H as Hab H. f_equal; [apply Hf; exact Hab | apply IH; exact H].
Qed.

Lemma JStr_injective (a b : string) : JStr a = JStr b -> a = b.
Proof. intros H. injection H as H. exact H. Qed.

Lemma entry_injective (a b : JsVal * JsVal) :
  JObj [("role", fst a); ("content", snd a)] = JObj [("role", fst b); ("content", snd b)] ->
  a = b.
Proof. destruct a, b. cbn. intros H. injection H as -> ->. reflexivity. Qed.

(** X25: the page's backend calls are told apart by what they hand to the
    HTTP client: two calls that differ, in kind or in any argument, never
    give the same method, path and request data. *)
Theorem http_injective (r1 r2 : Request) : http r1 = http r2 -> r1 = r2.
Proof.
  destruct r1, r2; cbn; intros H; try discriminate H; try reflexivity.
  - injection H as H. rewrite H. reflexivity.
  - injection H as Hu Hb. apply append_inv_tail in Hu. subst. reflexivity.
  - injection H as Hm Hp.
    apply (map_injective _ _ _ entry_injective) in Hm.
    apply (map_injective _ _ _ JStr_injective) in Hp. subst. reflexivity.
  - injection H as H. apply (map_injective _ _ _ JStr_injective) in H.
    subst. reflexivity.
  - injection H as H. rewrite H. reflexivity.
Qed.

Lemma http_injective_witness :
  sendChatMessage "s1" "hi" = sendChatMessage "s1" "hi".
Proof.
  exact (http_injective (sendChatMessage "s1" "hi") (sendChatMessage "s1" "hi") eq_refl).
Defined.

End Http.

(** ** History panel and startup races *)

Section History.

(** X26: in every run of the page the selection holds at most 3 entries
    and no policy id twice: toggleCompare keeps the bound, and the only
    other writes to the selection, in switchSession and startNewSession,
    empty it. *)
Theorem selection_stays_bounded (slot : option string) (es : list Event) (s : Sys) :
  run (mount slot) es = Some s ->
  List.length (selected (ui s)) <= 3 /\ NoDup (ids (selected (ui s))).
Proof.
  intros Hrun.
  exact (proj1 (proj2 (run_page_inv es _ _ Hrun (mount_page_inv slot)))).
Qed.

Lemma selection_stays_bounded_witness :
  exists s,
    run (mount None)
      [ClickCompareToggle "p1" "A"; ClickCompareToggle "p2" "B";
       ClickCompareToggle "p3" "C"; ClickCompareToggle "p4" "D"] = Some s /\
    List.length (selected (ui s)) <= 3 /\ NoDup (ids (selected (ui s))).
Proof.
  eexists. split; [reflexivity|].
  exact (selection_stays_bounded None
           [ClickCompareToggle "p1" "A"; ClickCompareToggle "p2" "B";
            ClickCompareToggle "p3" "C"; ClickCompareToggle "p4" "D"] _ eq_refl).
Defined.

(** X27: a click on History flips the panel and starts a list call,
    whether the panel opens or closes; when the call settles, the session
    list is replaced by the list of the reply, and emptied when the reply
    has no list or the call failed (the entries shown before are not
    kept).  Transcript, session id and slot are not touched. *)
Theorem history_load_replaces_list (s : Sys) (o : Result (option (list Session))) :
  exists s',
    run s [ClickHistory; Settle (List.length (inflight s)) (sessions_outcome o)] = Some s' /\
    sessions (ui s') = match o with
                       | Ok (Some l) => l
                       | _ => []
                       end /\
    showHistory (ui s') = negb (showHistory (ui s)) /\
    messages (ui s') = messages (ui s) /\
    sessionId (ui s') = sessionId (ui s) /\
    storage (ui s') = storage (ui s) /\
    inflight s' = inflight s.
Proof.
  destruct s as [st l]. cbn [ui inflight].
  eexists. split.
  - cbn [run]. unfold step at 1. cbn [ui inflight]. unfold loadSessionHistory, suspend.
    cbn [fst snd inflight opt_list].
    erewrite settle_at; [reflexivity | |].
    + destruct o; reflexivity.
    + destruct o; reflexivity.
  - cbn [ui inflight opt_list]. rewrite !app_nil_r.
    destruct o as [[x|]|e]; cbn; repeat split.
Qed.

(** X28: a session created while the startup fetch is still in flight is
    overridden when the fetch succeeds: the stored id becomes the active
    session id again, while the slot keeps the id of the created session,
    so the active session and the remembered one differ. *)
Theorem restore_overrides_new_session (stored new_id : string) (d : option (list JsVal)) :
  truthy_str stored = true ->
  (forall l, d = Some l -> Forall (fun r => nullish r = false) l) ->
  exists s,
    run (mount (Some stored))
      [ClickNew; Settle 1 (Ok (CreatedReply new_id)); Settle 0 (Ok (SessionReply d))]
      = Some s /\
    sessionId (ui s) = Some stored /\
    storage (ui s) = Some new_id /\
    inflight s = [].
Proof.
  intros Hs Hd. rewrite (mount_stored stored Hs).
  set (p0 := mkPending (getChatSession stored) (InitRestore stored)).
  set (p1 := mkPending createChatSession NewSession).
  set (st0 := setSessionLoading true (initial (Some stored))).
  set (st1 := setShowHistory false st0).
  set (st2 := startNewSession_created (Ok new_id) st1).
  assert (S1 : step (mkSys st0 [p0]) ClickNew = Some (mkSys st1 [p0; p1])) by reflexivity.
  assert (S2 : step (mkSys st1 [p0; p1]) (Settle 1 (Ok (CreatedReply new_id)))
               = Some (mkSys st2 [p0])).
  { exact (settle_at st1 [p0] p1 [] (Ok (CreatedReply new_id)) st2 None eq_refl eq_refl). }
  assert (R : exists st3,
            initSession_restored stored (Ok d) st2 = (st3, None) /\
            sessionId st3 = Some stored /\ storage st3 = Some new_id).
  { unfold initSession_restored. destruct d as [[|m ms]|].
    - eexists. split; [reflexivity|]. split; reflexivity.
    - destruct (reconstruct_objects (m :: ms) (Hd _ eq_refl)) as (restored & E & _).
      rewrite E. eexists. split; [reflexivity|]. split; reflexivity.
    - eexists. split; [reflexivity|]. split; reflexivity. }
  destruct R as (st3 & E3 & Hid & Hst).
  assert (S3 : step (mkSys st2 [p0]) (Settle 0 (Ok (SessionReply d))) = Some (mkSys st3 [])).
  { refine (settle_at st2 [] p0 [] (Ok (SessionReply d)) st3 None eq_refl _).
    cbn [cont p0 resume]. rewrite E3. reflexivity. }
  exists (mkSys st3 []). split.
  - cbn [run]. rewrite S1, S2, S3. reflexivity.
  - cbn [ui inflight]. repeat split; assumption.
Qed.

Lemma restore_overrides_new_session_witness :
  exists s,
    run (mount (Some "old"))
      [ClickNew; Settle 1 (Ok (CreatedReply "new")); Settle 0 (Ok (SessionReply None))]
      = Some s /\
    sessionId (ui s) = Some "old" /\
    storage (ui s) = Some "new" /\
    inflight s = [].
Proof.
  refine (restore_overrides_new_session "old" "new" None eq_refl _).
  intros l H. discriminate H.
Defined.

End History.
